(** * Streaming chat hook of stream-ui: src/src/hooks/useChatWebSocket.ts

    Shallow embedding of the React hook [useChatWebSocket]: the JSON values
    the hook parses and serialises, the hook's refs and state as one record,
    the socket callbacks, [handleStreamingMessage], [handleAdminResponse],
    [sendMessage], [connect], [disconnect] and the loading timeout effect.

    A JavaScript string is a list of UTF-16 code units, each a natural
    number below 2^16; its [length] is the length of the list. *)

From Stdlib Require Import Ascii String ZArith Lia.
From stdpp Require Import base list strings.
Set Warnings "-register-all -abstract-large-number".
Open Scope list_scope.
Import ListNotations.

Abbreviation text := (list N).

(** A string literal of the source (all of them are ASCII). *)
Definition txt (s : string) : text := map N_of_ascii (list_ascii_of_string s).

Definition is_char (n c : N) : bool := N.eqb c n.

(** * JSON values, JSON.parse, JSON.stringify *)
Module Json.

(** ** Numbers: IEEE 754 binary64 values

    [NFin neg m e] is (-1)^neg * m * 2^e with m < 2^53; m >= 2^52 unless
    e = -1074 (a subnormal) or m = 0 (a zero, with e = 0).  [NInf neg] is
    an infinity.  NaN has no constructor: JSON.parse never produces it, and
    the one place it arises (ToNumber of a string) uses [option number]. *)
Local Open Scope Z_scope.

Inductive number : Type :=
| NFin (neg : bool) (m : N) (e : Z)
| NInf (neg : bool).

Definition num_zero : number := NFin false 0 0.
Definition num_one : number := NFin false (2 ^ 52) (-52).

(** The largest f with 2^f <= a/b, for a, b > 0. *)
Definition floor_log2_q (a b : Z) : Z :=
  let t := Z.log2 a - Z.log2 b in
  if Z.leb (b * 2 ^ Z.max 0 t) (a * 2 ^ Z.max 0 (- t)) then t else t - 1.

(** The integer nearest to x/y (y > 0), ties to even. *)
Definition round_div (x y : Z) : Z :=
  let q := x / y in
  let r := x mod y in
  match Z.compare (2 * r) y with
  | Lt => q
  | Gt => q + 1
  | Eq => if Z.even q then q else q + 1
  end.

(** The double nearest to (-1)^neg * a/b (a >= 0, b > 0), ties to even,
    with gradual underflow and overflow to infinity. *)
Definition round_to_double (neg : bool) (a b : Z) : number :=
  if Z.eqb a 0 then NFin neg 0 0 else
  let e0 := Z.max (floor_log2_q a b - 52) (-1074) in
  let m0 := round_div (a * 2 ^ Z.max 0 (- e0)) (b * 2 ^ Z.max 0 e0) in
  let '(m, e) := if Z.eqb m0 (2 ^ 53) then (2 ^ 52, e0 + 1) else (m0, e0) in
  if Z.eqb m 0 then NFin neg 0 0
  else if Z.ltb 971 e then NInf neg
  else NFin neg (Z.to_N m) e.

(** The value of a string of decimal digits. *)
Definition digits_value (t : text) : Z :=
  fold_left (fun acc c => 10 * acc + (Z.of_N c - 48)) t 0.

(** The double nearest to (-1)^neg * ds * 10^ex, for the decimal digits
    [ds]: 10^ex bounds a nonzero value from below and 10^(ex + |ds|) from
    above, so the two early answers are the rounded ones. *)
Definition decimal_to_number (neg : bool) (ds : text) (ex : Z) : number :=
  let a := digits_value ds in
  if Z.eqb a 0 then NFin neg 0 0
  else if Z.ltb 309 ex then NInf neg
  else if Z.ltb (ex + Z.of_nat (length ds)) (-324) then NFin neg 0 0
  else round_to_double neg (a * 10 ^ Z.max 0 ex) (10 ^ Z.max 0 (- ex)).

(** ** Number::toString *)

(** [a * 10^p] against [b * 2^q], exactly. *)
Definition cmp_dec_bin (a p b q : Z) : comparison :=
  let P := Z.max 0 (- p) in
  let Q := Z.max 0 (- q) in
  Z.compare (a * 10 ^ (p + P) * 2 ^ Q) (b * 2 ^ (q + Q) * 10 ^ P).

(** The n with 10^(n-1) <= m * 2^e < 10^n, corrected from an estimate. *)
Fixpoint fix_exp10 (fuel : nat) (m e n : Z) : Z :=
  match fuel with
  | O => n
  | S f =>
      match cmp_dec_bin 1 n m e with
      | Gt =>
          match cmp_dec_bin 1 (n - 1) m e with
          | Gt => fix_exp10 f m e (n - 1)
          | _ => n
          end
      | _ => fix_exp10 f m e (n + 1)
      end
  end.

(** Step 5 of Number::toString for x = m * 2^e > 0: the fewest digits
    [s] (k of them, x close to s * 10^(n-k)) that read back as x, the
    nearest such [s] when two qualify, the even one on a tie.  A decimal
    reads back as x when it lies in the rounding interval of x: half-way
    to the neighbouring doubles, ends included when m is even. *)
Definition shortest (m e : Z) : Z * Z * Z :=
  let n := fix_exp10 8 m e ((Z.log2 m + e) * 30103 / 100000 + 1) in
  let lo := 4 * m - (if Z.eqb m (2 ^ 52) && Z.ltb (-1074) e then 1 else 2) in
  let hi := 4 * m + 2 in
  let incl := Z.even m in
  let inside (s p : Z) : bool :=
    match cmp_dec_bin s p lo (e - 2), cmp_dec_bin s p hi (e - 2) with
    | Gt, Lt => true
    | Eq, Lt | Gt, Eq => incl
    | _, _ => false
    end in
  let fix go (fuel : nat) (k : Z) : Z * Z * Z :=
    match fuel with
    | O => (0, k, n)
    | S f =>
        let p := n - k in
        let sf := (m * 2 ^ Z.max 0 e * 10 ^ Z.max 0 (- p)) /
                  (2 ^ Z.max 0 (- e) * 10 ^ Z.max 0 p) in
        let sc := sf + 1 in
        let pick :=
          match inside sf p, inside sc p with
          | true, true =>
              match cmp_dec_bin (2 * sf + 1) p (2 * m) e with
              | Gt => Some sf
              | Lt => Some sc
              | Eq => Some (if Z.even sf then sf else sc)
              end
          | true, false => Some sf
          | false, true => Some sc
          | false, false => None
          end in
        match pick with
        | Some s => if Z.eqb s (10 ^ k) then (1, 1, n + 1) else (s, k, n)
        | None => go f (k + 1)
        end
    end in
  go 17%nat 1.

(** Decimal digits of a natural number. *)
Fixpoint digits_rev (fuel : nat) (n : N) : text :=
  match fuel with
  | O => []
  | S f => (48 + n mod 10)%N :: (if N.ltb n 10 then [] else digits_rev f (n / 10))
  end.

Definition N_text (n : N) : text := rev (digits_rev (S (N.to_nat (N.log2 n))) n).

Definition nat_text (n : nat) : text := N_text (N.of_nat n).

Definition zeros (n : Z) : text := repeat 48%N (Z.to_nat n).

(** Steps 6 to 10 of Number::toString, for the digits [s], k and n. *)
Definition format_pos (s k n : Z) : text :=
  let ds := N_text (Z.to_N s) in
  if Z.leb k n && Z.leb n 21 then ds ++ zeros (n - k)
  else if Z.ltb 0 n && Z.leb n 21 then
    firstn (Z.to_nat n) ds ++ [46%N] ++ skipn (Z.to_nat n) ds
  else if Z.ltb (-6) n && Z.leb n 0 then txt "0." ++ zeros (- n) ++ ds
  else
    let tail := [101%N; if Z.leb 0 (n - 1) then 43%N else 45%N] ++
                N_text (Z.to_N (Z.abs (n - 1))) in
    match ds with
    | [d] => [d] ++ tail
    | d :: rest => [d; 46%N] ++ rest ++ tail
    | [] => tail
    end.

(** Number::toString(x) in radix 10. *)
Definition num_to_string (x : number) : text :=
  match x with
  | NFin neg m e =>
      if N.eqb m 0 then txt "0" else
      (if neg then [45%N] else []) ++
      (let '(s, k, n) := shortest (Z.of_N m) e in format_pos s k n)
  | NInf neg => (if neg then [45%N] else []) ++ txt "Infinity"
  end.

(** [x > k] for a natural number k, x not NaN. *)
Definition num_gt (x : number) (k : Z) : bool :=
  match x with
  | NFin false m e => match cmp_dec_bin k 0 (Z.of_N m) e with Lt => true | _ => false end
  | NFin true _ _ => false
  | NInf neg => negb neg
  end.

Local Close Scope Z_scope.

(** ** JSON values *)

(** A parsed JSON value.  Object members are kept in creation order with
    unique keys, as JSON.parse builds them. *)
Inductive json : Type :=
| JNull
| JBool (b : bool)
| JNum (x : number)
| JStr (s : text)
| JArr (items : list json)
| JObj (members : list (text * json)).

(** ** String.prototype.trim: the WhiteSpace and LineTerminator code
    points: TAB, LF, VT, FF, CR, SPACE, NO-BREAK SPACE, the other space
    separators (U+1680, U+2000..U+200A, U+202F, U+205F, U+3000), LINE
    SEPARATOR, PARAGRAPH SEPARATOR and ZERO WIDTH NO-BREAK SPACE. *)
Definition is_js_ws (c : N) : bool :=
  (N.leb 9 c && N.leb c 13) || N.eqb c 32 || N.eqb c 160 || N.eqb c 5760 ||
  (N.leb 8192 c && N.leb c 8202) || N.eqb c 8232 || N.eqb c 8233 ||
  N.eqb c 8239 || N.eqb c 8287 || N.eqb c 12288 || N.eqb c 65279.

Fixpoint ltrim (s : text) : text :=
  match s with
  | [] => []
  | c :: r => if is_js_ws c then ltrim r else s
  end.

Definition rtrim (s : text) : text := rev (ltrim (rev s)).

Definition trim (s : text) : text := rtrim (ltrim s).

(** ** JSON.parse (ECMA-404 grammar) *)

(** JSON whitespace: TAB, LF, CR, SPACE. *)
Definition is_json_ws (c : N) : bool :=
  N.eqb c 9 || N.eqb c 10 || N.eqb c 13 || N.eqb c 32.

Fixpoint skip_ws (s : text) : text :=
  match s with
  | [] => []
  | c :: r => if is_json_ws c then skip_ws r else s
  end.

Definition is_digit (c : N) : bool := N.leb 48 c && N.leb c 57.

Fixpoint take_digits (s : text) : text * text :=
  match s with
  | c :: r => if is_digit c then let '(ds, r') := take_digits r in (c :: ds, r')
              else ([], s)
  | [] => ([], [])
  end.

Definition hex_val (c : N) : option N :=
  if N.leb 48 c && N.leb c 57 then Some (c - 48)%N
  else if N.leb 97 c && N.leb c 102 then Some (c - 87)%N
  else if N.leb 65 c && N.leb c 70 then Some (c - 55)%N
  else None.

(** The single-character escapes: quote, backslash, slash, b, f, n, r, t. *)
Definition simple_escape (e : N) : option N :=
  if N.eqb e 34 then Some 34%N
  else if N.eqb e 92 then Some 92%N
  else if N.eqb e 47 then Some 47%N
  else if N.eqb e 98 then Some 8%N
  else if N.eqb e 102 then Some 12%N
  else if N.eqb e 110 then Some 10%N
  else if N.eqb e 114 then Some 13%N
  else if N.eqb e 116 then Some 9%N
  else None.

(** Body of a string literal after its opening quote: the decoded code
    units and the text after the closing quote.  A \uXXXX escape denotes
    one code unit. *)
Fixpoint parse_str_body (s : text) : option (text * text) :=
  match s with
  | [] => None
  | c :: r =>
      if is_char 34 c then Some ([], r)
      else if is_char 92 c then
        match r with
        | [] => None
        | e :: r' =>
            match simple_escape e with
            | Some d =>
                match parse_str_body r' with
                | Some (t, rest) => Some (d :: t, rest)
                | None => None
                end
            | None =>
                if is_char 117 e then
                  match r' with
                  | h1 :: h2 :: h3 :: h4 :: r'' =>
                      match hex_val h1, hex_val h2, hex_val h3, hex_val h4 with
                      | Some a, Some b, Some c', Some d =>
                          match parse_str_body r'' with
                          | Some (t, rest) => Some ((((a * 16 + b) * 16 + c') * 16 + d)%N :: t, rest)
                          | None => None
                          end
                      | _, _, _, _ => None
                      end
                  | _ => None
                  end
                else None
            end
        end
      else if N.ltb c 32 then None
      else
        match parse_str_body r with
        | Some (t, rest) => Some (c :: t, rest)
        | None => None
        end
  end.

(** A number: -? (0 | [1-9][0-9]* ) (. [0-9]+)? ([eE] [+-]? [0-9]+)? *)
Definition parse_int_part (s : text) : option (text * text) :=
  match s with
  | c :: r =>
      if is_char 48 c then Some ([c], r)
      else if is_digit c then let '(ds, r') := take_digits r in Some (c :: ds, r')
      else None
  | [] => None
  end.

Definition parse_frac (s : text) : option (text * text) :=
  match s with
  | c :: r =>
      if is_char 46 c then
        match take_digits r with
        | ([], _) => None
        | (ds, r') => Some (ds, r')
        end
      else Some ([], s)
  | [] => Some ([], [])
  end.

(** The exponent part, as its value. *)
Definition parse_exp (s : text) : option (Z * text) :=
  match s with
  | c :: r =>
      if is_char 101 c || is_char 69 c then
        let '(neg, r1) :=
          match r with
          | d :: r0 => if is_char 45 d then (true, r0)
                       else if is_char 43 d then (false, r0) else (false, r)
          | [] => (false, [])
          end in
        match take_digits r1 with
        | ([], _) => None
        | (ds, r2) => Some ((if neg then - digits_value ds else digits_value ds)%Z, r2)
        end
      else Some (0%Z, s)
  | [] => Some (0%Z, [])
  end.

(** The literal denotes the number (-1)^neg * ip.fd * 10^ev; JSON.parse
    gives the double nearest to it. *)
Definition parse_number (s : text) : option (json * text) :=
  let '(neg, s1) :=
    match s with
    | c :: r => if is_char 45 c then (true, r) else (false, s)
    | [] => (false, [])
    end in
  match parse_int_part s1 with
  | None => None
  | Some (ip, r1) =>
      match parse_frac r1 with
      | None => None
      | Some (fd, r2) =>
          match parse_exp r2 with
          | None => None
          | Some (ev, r3) =>
              Some (JNum (decimal_to_number neg (ip ++ fd) (ev - Z.of_nat (length fd))%Z), r3)
          end
      end
  end.

Fixpoint strip_prefix (pre s : text) : option text :=
  match pre, s with
  | [], _ => Some s
  | p :: pre', c :: s' => if N.eqb p c then strip_prefix pre' s' else None
  | _ :: _, [] => None
  end.

Fixpoint assoc (k : text) (ms : list (text * json)) : option json :=
  match ms with
  | [] => None
  | (k', v) :: ms' => if decide (k = k') then Some v else assoc k ms'
  end.

(** CreateDataProperty as JSON.parse uses it: a repeated key keeps its
    first position and takes the later value. *)
Fixpoint obj_set (ms : list (text * json)) (k : text) (v : json) : list (text * json) :=
  match ms with
  | [] => [(k, v)]
  | (k', v') :: ms' =>
      if decide (k = k') then (k, v) :: ms' else (k', v') :: obj_set ms' k v
  end.

(** The value parser, by recursion on a fuel bound; [parse_members] and
    [parse_elems] parse the rest of an object and of an array. *)
Fixpoint parse_value (fuel : nat) (s : text) : option (json * text) :=
  match fuel with
  | O => None
  | S f =>
      match skip_ws s with
      | [] => None
      | c :: r =>
          if is_char 123 c then
            match skip_ws r with
            | d :: r' => if is_char 125 d then Some (JObj [], r') else parse_members f r []
            | [] => None
            end
          else if is_char 91 c then
            match skip_ws r with
            | d :: r' => if is_char 93 d then Some (JArr [], r') else parse_elems f r []
            | [] => None
            end
          else if is_char 34 c then
            match parse_str_body r with
            | Some (t, rest) => Some (JStr t, rest)
            | None => None
            end
          else
            match strip_prefix (txt "true") (c :: r) with
            | Some rest => Some (JBool true, rest)
            | None =>
                match strip_prefix (txt "false") (c :: r) with
                | Some rest => Some (JBool false, rest)
                | None =>
                    match strip_prefix (txt "null") (c :: r) with
                    | Some rest => Some (JNull, rest)
                    | None => parse_number (c :: r)
                    end
                end
            end
      end
  end
with parse_members (fuel : nat) (s : text) (acc : list (text * json))
    : option (json * text) :=
  match fuel with
  | O => None
  | S f =>
      match skip_ws s with
      | c :: r =>
          if is_char 34 c then
            match parse_str_body r with
            | Some (k, r1) =>
                match skip_ws r1 with
                | d :: r2 =>
                    if is_char 58 d then
                      match parse_value f r2 with
                      | Some (v, r3) =>
                          match skip_ws r3 with
                          | e :: r4 =>
                              if is_char 44 e then parse_members f r4 (obj_set acc k v)
                              else if is_char 125 e then Some (JObj (obj_set acc k v), r4)
                              else None
                          | [] => None
                          end
                      | None => None
                      end
                    else None
                | [] => None
                end
            | None => None
            end
          else None
      | [] => None
      end
  end
with parse_elems (fuel : nat) (s : text) (acc : list json) : option (json * text) :=
  match fuel with
  | O => None
  | S f =>
      match parse_value f s with
      | Some (v, r1) =>
          match skip_ws r1 with
          | e :: r2 =>
              if is_char 44 e then parse_elems f r2 (acc ++ [v])
              else if is_char 93 e then Some (JArr (acc ++ [v]), r2)
              else None
          | [] => None
          end
      | None => None
      end
  end.

(** JSON.parse: one value, surrounded by JSON whitespace only.  The
    nesting depth of the calls above is at most twice the number of
    code units read, so the fuel never runs out on a JSON text. *)
Definition parse (s : text) : option json :=
  match parse_value (S (2 * length s)) s with
  | Some (v, rest) => if forallb is_json_ws rest then Some v else None
  | None => None
  end.

(** ** The JavaScript side of a parsed value *)

(** ToBoolean. *)
Definition truthy (v : json) : bool :=
  match v with
  | JNull => false
  | JBool b => b
  | JNum (NFin _ m _) => negb (N.eqb m 0)
  | JNum (NInf _) => true
  | JStr s => negb (Nat.eqb (length s) 0)
  | JArr _ | JObj _ => true
  end.

(** A property read [v.k] for the property names the hook reads (type,
    reply, config, objects, workflows, layout, app_id, steps, fields,
    description): none of them is an own or inherited property of an
    array, string, number or boolean, so only objects can have them.
    [None] is the TypeError thrown when [v] is null; [Some None] is
    undefined. *)
Definition get (v : json) (k : text) : option (option json) :=
  match v with
  | JNull => None
  | JObj ms => Some (assoc k ms)
  | _ => Some None
  end.

(** [x?.k] on a value that may be undefined. *)
Definition get_opt (v : option json) (k : text) : option json :=
  match v with
  | None | Some JNull => None
  | Some v' => match get v' k with Some r => r | None => None end
  end.

Definition truthy_opt (v : option json) : bool :=
  match v with Some v' => truthy v' | None => false end.

(** An array index key: a canonical decimal below 2^32 - 1. *)
Definition is_array_index (k : text) : bool :=
  match k with
  | [] => false
  | c :: r =>
      forallb is_digit k && (negb (is_char 48 c) || Nat.eqb (length r) 0)
      && Z.leb (digits_value k) 4294967294
  end.

Fixpoint insert_by_index {A} (x : text * A) (l : list (text * A)) : list (text * A) :=
  match l with
  | [] => [x]
  | y :: l' => if Z.leb (digits_value x.1) (digits_value y.1) then x :: l
               else y :: insert_by_index x l'
  end.

(** OrdinaryOwnPropertyKeys: array-index keys in ascending order, then
    the other keys in creation order.  Object.entries and JSON.stringify
    both list the members in this order. *)
Definition own_order {A} (ms : list (text * A)) : list (text * A) :=
  fold_right insert_by_index [] (List.filter (fun m => is_array_index m.1) ms)
  ++ List.filter (fun m => negb (is_array_index m.1)) ms.

Fixpoint index_pairs {A} (i : nat) (l : list A) : list (text * A) :=
  match l with
  | [] => []
  | x :: l' => (nat_text i, x) :: index_pairs (S i) l'
  end.

(** Object.entries on a truthy value. *)
Definition entries (v : json) : list (text * json) :=
  match v with
  | JObj ms => own_order ms
  | JArr l => index_pairs 0 l
  | JStr s => index_pairs 0 (map (fun c => JStr [c]) s)
  | _ => []
  end.

(** ** JSON.stringify *)

Definition hex_digit (n : N) : N := if N.ltb n 10 then (48 + n)%N else (87 + n)%N.

(** [\uXXXX] in lowercase hexadecimal, for a code unit below 2^16. *)
Definition unicode_escape (c : N) : text :=
  [92%N; 117%N; hex_digit (c / 4096); hex_digit (c / 256 mod 16);
   hex_digit (c / 16 mod 16); hex_digit (c mod 16)].

(** QuoteJSONString on a code unit that is not a surrogate. *)
Definition escape_char (c : N) : text :=
  if N.eqb c 8 then [92; 98]%N
  else if N.eqb c 9 then [92; 116]%N
  else if N.eqb c 10 then [92; 110]%N
  else if N.eqb c 12 then [92; 102]%N
  else if N.eqb c 13 then [92; 114]%N
  else if N.eqb c 34 then [92; 34]%N
  else if N.eqb c 92 then [92; 92]%N
  else if N.ltb c 32 then unicode_escape c
  else [c].

Definition is_high (c : N) : bool := N.leb 55296 c && N.leb c 56319.
Definition is_low (c : N) : bool := N.leb 56320 c && N.leb c 57343.

(** QuoteJSONString reads the string as code points: a surrogate pair is
    one code point and is copied; a lone surrogate is escaped. *)
Fixpoint quote_body (s : text) : text :=
  match s with
  | [] => []
  | c :: r =>
      if is_high c then
        match r with
        | d :: r' => if is_low d then c :: d :: quote_body r'
                     else unicode_escape c ++ quote_body r
        | [] => unicode_escape c
        end
      else if is_low c then unicode_escape c ++ quote_body r
      else escape_char c ++ quote_body r
  end.

Definition quote (s : text) : text := [34%N] ++ quote_body s ++ [34%N].

Fixpoint join (sep : text) (l : list text) : text :=
  match l with
  | [] => []
  | [x] => x
  | x :: l' => x ++ sep ++ join sep l'
  end.

(** JSON.stringify without indentation: a finite number by
    Number::toString, an infinite one as null. *)
Fixpoint stringify (v : json) : text :=
  match v with
  | JNull => txt "null"
  | JBool true => txt "true"
  | JBool false => txt "false"
  | JNum (NInf _) => txt "null"
  | JNum x => num_to_string x
  | JStr s => quote s
  | JArr l => txt "[" ++ join (txt ",") (map stringify l) ++ txt "]"
  | JObj ms =>
      txt "{" ++
      join (txt ",")
        (map (fun m => quote m.1 ++ txt ":" ++ m.2)
           (own_order (map (fun m => (m.1, stringify m.2)) ms)))
      ++ txt "}"
  end.

(** ** Conversions used by the operators of the hook *)

(** ToString ([None]: a TypeError).  An array converts by
    Array.prototype.join, with null elements as empty strings.  An object
    converts by its [toString] method: an own member [toString] of a parsed
    object is not callable, and the conversion throws; otherwise
    Object.prototype.toString gives "[object Object]". *)
Fixpoint to_js_string (v : json) : option text :=
  match v with
  | JNull => Some (txt "null")
  | JBool true => Some (txt "true")
  | JBool false => Some (txt "false")
  | JNum x => Some (num_to_string x)
  | JStr s => Some s
  | JArr l =>
      let fix go (l : list json) : option (list text) :=
        match l with
        | [] => Some []
        | x :: l' =>
            match (match x with JNull => Some [] | _ => to_js_string x end), go l' with
            | Some a, Some b => Some (a :: b)
            | _, _ => None
            end
        end in
      match go l with Some ts => Some (join (txt ",") ts) | None => None end
  | JObj ms =>
      match assoc (txt "toString") ms with
      | Some _ => None
      | None => Some (txt "[object Object]")
      end
  end.

(** StringToNumber ([None]: NaN). *)
Fixpoint radix_value (base acc : Z) (t : text) : option Z :=
  match t with
  | [] => Some acc
  | c :: r =>
      match hex_val c with
      | Some v => if Z.ltb (Z.of_N v) base then radix_value base (base * acc + Z.of_N v)%Z r
                  else None
      | None => None
      end
  end.

(** 0x, 0o, 0b literals. *)
Definition non_decimal (t : text) : option number :=
  match t with
  | z :: x :: ((_ :: _) as ds) =>
      if is_char 48 z then
        let base := (if is_char 120 x || is_char 88 x then 16
                     else if is_char 111 x || is_char 79 x then 8
                     else if is_char 98 x || is_char 66 x then 2 else 0)%Z in
        if Z.eqb base 0 then None else
        match radix_value base 0 ds with
        | Some v => Some (round_to_double false v 1)
        | None => None
        end
      else None
  | _ => None
  end.

(** StrDecimalLiteral: a sign, then Infinity or digits with an optional
    point and an optional exponent. *)
Definition str_decimal (t : text) : option number :=
  let '(neg, u) :=
    match t with
    | c :: r => if is_char 45 c then (true, r) else if is_char 43 c then (false, r) else (false, t)
    | [] => (false, [])
    end in
  if bool_decide (u = txt "Infinity") then Some (NInf neg) else
  let '(ip, r1) := take_digits u in
  let '(fd, r2) :=
    match r1 with
    | c :: r => if is_char 46 c then take_digits r else ([], r1)
    | [] => ([], [])
    end in
  if Nat.eqb (length ip) 0 && Nat.eqb (length fd) 0 then None else
  match r2 with
  | [] => Some (decimal_to_number neg (ip ++ fd) (- Z.of_nat (length fd))%Z)
  | c :: r =>
      if is_char 101 c || is_char 69 c then
        let '(eneg, r3) :=
          match r with
          | d :: r' => if is_char 45 d then (true, r') else if is_char 43 d then (false, r')
                       else (false, r)
          | [] => (false, [])
          end in
        let '(ed, r4) := take_digits r3 in
        if Nat.eqb (length ed) 0 || negb (Nat.eqb (length r4) 0) then None
        else Some (decimal_to_number neg (ip ++ fd)
                     ((if eneg then - digits_value ed else digits_value ed)
                      - Z.of_nat (length fd))%Z)
      else None
  end.

Definition string_to_number (s : text) : option number :=
  match trim s with
  | [] => Some num_zero
  | t => match non_decimal t with
         | Some x => Some x
         | None => str_decimal t
         end
  end.

(** ToNumber through ToPrimitive with hint number: [None] is a TypeError,
    [Some None] is NaN.  An array's valueOf gives the array back, so its
    toString (the join) is converted; an object with an own [toString]
    member throws, any other object gives "[object Object]", which is
    NaN. *)
Definition to_number (v : json) : option (option number) :=
  match v with
  | JNull => Some (Some num_zero)
  | JBool b => Some (Some (if b then num_one else num_zero))
  | JNum x => Some (Some x)
  | JStr s => Some (string_to_number s)
  | JArr _ => match to_js_string v with
              | Some t => Some (string_to_number t)
              | None => None
              end
  | JObj ms => match assoc (txt "toString") ms with
               | Some _ => None
               | None => Some None
               end
  end.

End Json.

(** * The hook's state *)
Module Hook.
Import Json.

Inductive author : Type := User | Assistant.

(** The [Message] interface (lines 3-13).  [id] is [Date.now().toString()],
    kept as the number it prints. *)
Record message : Type := mkMessage {
  id : Z;
  sender : author;
  content : json;
  timestamp : Z;
  parsedResponse : option json
}.

Inductive ready_state : Type := CONNECTING | OPEN | CLOSING | CLOSED.

Global Instance ready_state_eq_dec : EqDecision ready_state.
Proof. solve_decision. Defined.

(** The two kinds of callback the hook passes to setTimeout. *)
Inductive timer_cb : Type :=
| ReconnectCb          (* () => connect(), line 73 *)
| LoadingTimeoutCb.    (* the timeout of the loading effect, line 266 *)

Record timer : Type := mkTimer { t_id : nat; t_due : Z; t_cb : timer_cb }.

(** The objects and workflows handed to the consumers (lines 94-100 and
    108-117).  [Date.now() + Math.random()] is kept as the pair of the
    clock and the sequence number of the Math.random() call; the random
    values themselves are left abstract.  The two [toISOString] stamps are
    the clock of the event. *)
Record object_item : Type := mkObjectItem {
  o_id : Z * nat;
  o_name : text;
  o_fields : json;
  o_created_at : Z;
  o_updated_at : Z
}.

Record workflow_item : Type := mkWorkflowItem {
  w_id : Z * nat;
  w_name : text;
  w_steps : json;
  w_app_id : json;
  w_created_at : Z;
  w_updated_at : Z;
  w_description : json;
  w_status : text
}.

(** Observable calls made by the hook: the log line that opens
    [handleAdminResponse] (line 86) marks each dispatch to the response
    router; the others are the consumer callbacks. *)
Inductive output : Type :=
| AdminResponseReceived (response : json)
| ObjectsUpdated (objects : list object_item)
| WorkflowsUpdated (workflows : list workflow_item)
| LayoutGenerated (layout : json).

(** Which optional callbacks the hook was given ([ChatWebSocketProps]).
    A consumer is modelled as recording its call in [outputs]. *)
Record props : Type := mkProps {
  has_onObjectsUpdated : bool;
  has_onWorkflowsUpdated : bool;
  has_onLayoutGenerated : bool
}.

(** The updaters the hook passes to [setMessages]. *)
Inductive upd : Type :=
| AppendMsg (l : nat)   (* prev => [...prev, message], line 223 *)
| AppendRef             (* prev => [...prev, currentAssistantMessageRef.current!], line 149 *)
| EditLast              (* lines 153-160 *)
| CommitLast (parsed reply : json).  (* lines 176-184, with [parsed.reply] *)

(** The hook's refs and React state.  React does not run an updater when
    [setMessages] is called: it queues it in [pending], and the next
    render applies the queued updaters in order, reading the refs as they
    are then.  (React computes an updater at the call only when neither
    copy of the component's fiber has pending work, which is not the case
    after a render that processed a state update, such as the one after a
    send.)  The other state setters are applied at once: nothing reads
    [isConnected] or [isLoading] before the next render. *)

Record st : Type := mkSt {
  messages : list (option nat);  (* the [messages] state: each entry a reference to a message object, or [None] for null *)
  heap : list message;  (* the message objects, indexed by reference *)
  isConnected : bool;  (* the [isConnected] state *)
  isLoading : bool;  (* the [isLoading] state *)
  wsRef : option nat;  (* [wsRef.current]: the socket in use *)
  sockets : list ready_state;  (* every WebSocket created so far, with its readyState *)
  currentMessageRef : json;  (* [currentMessageRef.current]: the accumulated reply text *)
  currentAssistantMessageRef : option nat;  (* [currentAssistantMessageRef.current] *)
  reconnectTimeoutRef : option nat;  (* [reconnectTimeoutRef.current] *)
  lastProcessedResponseRef : text;  (* [lastProcessedResponseRef.current] *)
  responseCompletedRef : bool;  (* [responseCompletedRef.current] *)
  loadingTimer : option nat;  (* the timeout id held by the cleanup of the loading effect *)
  timers : list timer;  (* pending setTimeout callbacks *)
  nextTimerId : nat;  (* the id the next setTimeout returns *)
  randomCalls : nat;  (* number of Math.random() calls so far *)
  clock : Z;  (* Date.now() *)
  outbox : list (nat * text);  (* frames handed to ws.send, with the socket *)
  outputs : list output;  (* observable calls: the admin-response log line and the consumers *)
  pending : list upd  (* the [setMessages] updaters queued since the last render *)
}.

Definition set_messages (x : list (option nat)) (s : st) : st :=
  {| messages := x; heap := heap s; isConnected := isConnected s; isLoading := isLoading s; wsRef := wsRef s; sockets := sockets s; currentMessageRef := currentMessageRef s; currentAssistantMessageRef := currentAssistantMessageRef s; reconnectTimeoutRef := reconnectTimeoutRef s; lastProcessedResponseRef := lastProcessedResponseRef s; responseCompletedRef := responseCompletedRef s; loadingTimer := loadingTimer s; timers := timers s; nextTimerId := nextTimerId s; randomCalls := randomCalls s; clock := clock s; outbox := outbox s; outputs := outputs s; pending := pending s |}.

Definition set_heap (x : list message) (s : st) : st :=
  {| messages := messages s; heap := x; isConnected := isConnected s; isLoading := isLoading s; wsRef := wsRef s; sockets := sockets s; currentMessageRef := currentMessageRef s; currentAssistantMessageRef := currentAssistantMessageRef s; reconnectTimeoutRef := reconnectTimeoutRef s; lastProcessedResponseRef := lastProcessedResponseRef s; responseCompletedRef := responseCompletedRef s; loadingTimer := loadingTimer s; timers := timers s; nextTimerId := nextTimerId s; randomCalls := randomCalls s; clock := clock s; outbox := outbox s; outputs := outputs s; pending := pending s |}.

Definition set_isConnected (x : bool) (s : st) : st :=
  {| messages := messages s; heap := heap s; isConnected := x; isLoading := isLoading s; wsRef := wsRef s; sockets := sockets s; currentMessageRef := currentMessageRef s; currentAssistantMessageRef := currentAssistantMessageRef s; reconnectTimeoutRef := reconnectTimeoutRef s; lastProcessedResponseRef := lastProcessedResponseRef s; responseCompletedRef := responseCompletedRef s; loadingTimer := loadingTimer s; timers := timers s; nextTimerId := nextTimerId s; randomCalls := randomCalls s; clock := clock s; outbox := outbox s; outputs := outputs s; pending := pending s |}.

Definition set_isLoading (x : bool) (s : st) : st :=
  {| messages := messages s; heap := heap s; isConnected := isConnected s; isLoading := x; wsRef := wsRef s; sockets := sockets s; currentMessageRef := currentMessageRef s; currentAssistantMessageRef := currentAssistantMessageRef s; reconnectTimeoutRef := reconnectTimeoutRef s; lastProcessedResponseRef := lastProcessedResponseRef s; responseCompletedRef := responseCompletedRef s; loadingTimer := loadingTimer s; timers := timers s; nextTimerId := nextTimerId s; randomCalls := randomCalls s; clock := clock s; outbox := outbox s; outputs := outputs s; pending := pending s |}.

Definition set_wsRef (x : option nat) (s : st) : st :=
  {| messages := messages s; heap := heap s; isConnected := isConnected s; isLoading := isLoading s; wsRef := x; sockets := sockets s; currentMessageRef := currentMessageRef s; currentAssistantMessageRef := currentAssistantMessageRef s; reconnectTimeoutRef := reconnectTimeoutRef s; lastProcessedResponseRef := lastProcessedResponseRef s; responseCompletedRef := responseCompletedRef s; loadingTimer := loadingTimer s; timers := timers s; nextTimerId := nextTimerId s; randomCalls := randomCalls s; clock := clock s; outbox := outbox s; outputs := outputs s; pending := pending s |}.

Definition set_sockets (x : list ready_state) (s : st) : st :=
  {| messages := messages s; heap := heap s; isConnected := isConnected s; isLoading := isLoading s; wsRef := wsRef s; sockets := x; currentMessageRef := currentMessageRef s; currentAssistantMessageRef := currentAssistantMessageRef s; reconnectTimeoutRef := reconnectTimeoutRef s; lastProcessedResponseRef := lastProcessedResponseRef s; responseCompletedRef := responseCompletedRef s; loadingTimer := loadingTimer s; timers := timers s; nextTimerId := nextTimerId s; randomCalls := randomCalls s; clock := clock s; outbox := outbox s; outputs := outputs s; pending := pending s |}.

Definition set_currentMessageRef (x : json) (s : st) : st :=
  {| messages := messages s; heap := heap s; isConnected := isConnected s; isLoading := isLoading s; wsRef := wsRef s; sockets := sockets s; currentMessageRef := x; currentAssistantMessageRef := currentAssistantMessageRef s; reconnectTimeoutRef := reconnectTimeoutRef s; lastProcessedResponseRef := lastProcessedResponseRef s; responseCompletedRef := responseCompletedRef s; loadingTimer := loadingTimer s; timers := timers s; nextTimerId := nextTimerId s; randomCalls := randomCalls s; clock := clock s; outbox := outbox s; outputs := outputs s; pending := pending s |}.

Definition set_currentAssistantMessageRef (x : option nat) (s : st) : st :=
  {| messages := messages s; heap := heap s; isConnected := isConnected s; isLoading := isLoading s; wsRef := wsRef s; sockets := sockets s; currentMessageRef := currentMessageRef s; currentAssistantMessageRef := x; reconnectTimeoutRef := reconnectTimeoutRef s; lastProcessedResponseRef := lastProcessedResponseRef s; responseCompletedRef := responseCompletedRef s; loadingTimer := loadingTimer s; timers := timers s; nextTimerId := nextTimerId s; randomCalls := randomCalls s; clock := clock s; outbox := outbox s; outputs := outputs s; pending := pending s |}.

Definition set_reconnectTimeoutRef (x : option nat) (s : st) : st :=
  {| messages := messages s; heap := heap s; isConnected := isConnected s; isLoading := isLoading s; wsRef := wsRef s; sockets := sockets s; currentMessageRef := currentMessageRef s; currentAssistantMessageRef := currentAssistantMessageRef s; reconnectTimeoutRef := x; lastProcessedResponseRef := lastProcessedResponseRef s; responseCompletedRef := responseCompletedRef s; loadingTimer := loadingTimer s; timers := timers s; nextTimerId := nextTimerId s; randomCalls := randomCalls s; clock := clock s; outbox := outbox s; outputs := outputs s; pending := pending s |}.

Definition set_lastProcessedResponseRef (x : text) (s : st) : st :=
  {| messages := messages s; heap := heap s; isConnected := isConnected s; isLoading := isLoading s; wsRef := wsRef s; sockets := sockets s; currentMessageRef := currentMessageRef s; currentAssistantMessageRef := currentAssistantMessageRef s; reconnectTimeoutRef := reconnectTimeoutRef s; lastProcessedResponseRef := x; responseCompletedRef := responseCompletedRef s; loadingTimer := loadingTimer s; timers := timers s; nextTimerId := nextTimerId s; randomCalls := randomCalls s; clock := clock s; outbox := outbox s; outputs := outputs s; pending := pending s |}.

Definition set_responseCompletedRef (x : bool) (s : st) : st :=
  {| messages := messages s; heap := heap s; isConnected := isConnected s; isLoading := isLoading s; wsRef := wsRef s; sockets := sockets s; currentMessageRef := currentMessageRef s; currentAssistantMessageRef := currentAssistantMessageRef s; reconnectTimeoutRef := reconnectTimeoutRef s; lastProcessedResponseRef := lastProcessedResponseRef s; responseCompletedRef := x; loadingTimer := loadingTimer s; timers := timers s; nextTimerId := nextTimerId s; randomCalls := randomCalls s; clock := clock s; outbox := outbox s; outputs := outputs s; pending := pending s |}.

Definition set_loadingTimer (x : option nat) (s : st) : st :=
  {| messages := messages s; heap := heap s; isConnected := isConnected s; isLoading := isLoading s; wsRef := wsRef s; sockets := sockets s; currentMessageRef := currentMessageRef s; currentAssistantMessageRef := currentAssistantMessageRef s; reconnectTimeoutRef := reconnectTimeoutRef s; lastProcessedResponseRef := lastProcessedResponseRef s; responseCompletedRef := responseCompletedRef s; loadingTimer := x; timers := timers s; nextTimerId := nextTimerId s; randomCalls := randomCalls s; clock := clock s; outbox := outbox s; outputs := outputs s; pending := pending s |}.

Definition set_timers (x : list timer) (s : st) : st :=
  {| messages := messages s; heap := heap s; isConnected := isConnected s; isLoading := isLoading s; wsRef := wsRef s; sockets := sockets s; currentMessageRef := currentMessageRef s; currentAssistantMessageRef := currentAssistantMessageRef s; reconnectTimeoutRef := reconnectTimeoutRef s; lastProcessedResponseRef := lastProcessedResponseRef s; responseCompletedRef := responseCompletedRef s; loadingTimer := loadingTimer s; timers := x; nextTimerId := nextTimerId s; randomCalls := randomCalls s; clock := clock s; outbox := outbox s; outputs := outputs s; pending := pending s |}.

Definition set_nextTimerId (x : nat) (s : st) : st :=
  {| messages := messages s; heap := heap s; isConnected := isConnected s; isLoading := isLoading s; wsRef := wsRef s; sockets := sockets s; currentMessageRef := currentMessageRef s; currentAssistantMessageRef := currentAssistantMessageRef s; reconnectTimeoutRef := reconnectTimeoutRef s; lastProcessedResponseRef := lastProcessedResponseRef s; responseCompletedRef := responseCompletedRef s; loadingTimer := loadingTimer s; timers := timers s; nextTimerId := x; randomCalls := randomCalls s; clock := clock s; outbox := outbox s; outputs := outputs s; pending := pending s |}.

Definition set_randomCalls (x : nat) (s : st) : st :=
  {| messages := messages s; heap := heap s; isConnected := isConnected s; isLoading := isLoading s; wsRef := wsRef s; sockets := sockets s; currentMessageRef := currentMessageRef s; currentAssistantMessageRef := currentAssistantMessageRef s; reconnectTimeoutRef := reconnectTimeoutRef s; lastProcessedResponseRef := lastProcessedResponseRef s; responseCompletedRef := responseCompletedRef s; loadingTimer := loadingTimer s; timers := timers s; nextTimerId := nextTimerId s; randomCalls := x; clock := clock s; outbox := outbox s; outputs := outputs s; pending := pending s |}.

Definition set_clock (x : Z) (s : st) : st :=
  {| messages := messages s; heap := heap s; isConnected := isConnected s; isLoading := isLoading s; wsRef := wsRef s; sockets := sockets s; currentMessageRef := currentMessageRef s; currentAssistantMessageRef := currentAssistantMessageRef s; reconnectTimeoutRef := reconnectTimeoutRef s; lastProcessedResponseRef := lastProcessedResponseRef s; responseCompletedRef := responseCompletedRef s; loadingTimer := loadingTimer s; timers := timers s; nextTimerId := nextTimerId s; randomCalls := randomCalls s; clock := x; outbox := outbox s; outputs := outputs s; pending := pending s |}.

Definition set_outbox (x : list (nat * text)) (s : st) : st :=
  {| messages := messages s; heap := heap s; isConnected := isConnected s; isLoading := isLoading s; wsRef := wsRef s; sockets := sockets s; currentMessageRef := currentMessageRef s; currentAssistantMessageRef := currentAssistantMessageRef s; reconnectTimeoutRef := reconnectTimeoutRef s; lastProcessedResponseRef := lastProcessedResponseRef s; responseCompletedRef := responseCompletedRef s; loadingTimer := loadingTimer s; timers := timers s; nextTimerId := nextTimerId s; randomCalls := randomCalls s; clock := clock s; outbox := x; outputs := outputs s; pending := pending s |}.

Definition set_outputs (x : list output) (s : st) : st :=
  {| messages := messages s; heap := heap s; isConnected := isConnected s; isLoading := isLoading s; wsRef := wsRef s; sockets := sockets s; currentMessageRef := currentMessageRef s; currentAssistantMessageRef := currentAssistantMessageRef s; reconnectTimeoutRef := reconnectTimeoutRef s; lastProcessedResponseRef := lastProcessedResponseRef s; responseCompletedRef := responseCompletedRef s; loadingTimer := loadingTimer s; timers := timers s; nextTimerId := nextTimerId s; randomCalls := randomCalls s; clock := clock s; outbox := outbox s; outputs := x; pending := pending s |}.

Definition set_pending (x : list upd) (s : st) : st :=
  {| messages := messages s; heap := heap s; isConnected := isConnected s; isLoading := isLoading s; wsRef := wsRef s; sockets := sockets s; currentMessageRef := currentMessageRef s; currentAssistantMessageRef := currentAssistantMessageRef s; reconnectTimeoutRef := reconnectTimeoutRef s; lastProcessedResponseRef := lastProcessedResponseRef s; responseCompletedRef := responseCompletedRef s; loadingTimer := loadingTimer s; timers := timers s; nextTimerId := nextTimerId s; randomCalls := randomCalls s; clock := clock s; outbox := outbox s; outputs := outputs s; pending := x |}.

Definition init : st :=
  {| messages := []; heap := []; isConnected := false; isLoading := false;
     wsRef := None; sockets := []; currentMessageRef := JStr [];
     currentAssistantMessageRef := None; reconnectTimeoutRef := None;
     lastProcessedResponseRef := []; responseCompletedRef := false;
     loadingTimer := None; timers := []; nextTimerId := 1; randomCalls := 0;
     clock := 0; outbox := []; outputs := []; pending := [] |}.

(** ** Code that may throw: a state monad with exceptions.  A thrown
    exception ([None]) keeps the state reached so far, as mutations made
    before a throw in JavaScript persist. *)
Definition M (A : Type) : Type := st -> st * option A.

Global Instance M_ret : MRet M := fun A a s => (s, Some a).
Global Instance M_bind : MBind M := fun A B k m s =>
  match m s with
  | (s', Some a) => k a s'
  | (s', None) => (s', None)
  end.

Definition throw {A} : M A := fun s => (s, None).
Definition gets {A} (f : st -> A) : M A := fun s => (s, Some (f s)).
Definition modify (f : st -> st) : M unit := fun s => (f s, Some tt).

(** A conversion that may throw a TypeError. *)
Definition lift {A} (o : option A) : M A := fun s =>
  match o with Some a => (s, Some a) | None => (s, None) end.

(** [try { m } catch { h }]. *)
Definition try_catch {A} (m : M A) (h : M A) : M A := fun s =>
  match m s with
  | (s', Some a) => (s', Some a)
  | (s', None) => h s'
  end.

Definition emit (o : output) : M unit :=
  modify (fun s => set_outputs (outputs s ++ [o]) s).

(** Allocate a message object; its reference is its index in [heap]. *)
Definition alloc (m : message) : M nat := fun s =>
  (set_heap (heap s ++ [m]) s, Some (length (heap s))).

(** A mutation of the message object at reference [l]. *)
Definition update_msg (l : nat) (f : message -> message) : M unit :=
  modify (fun s => set_heap (alter f l (heap s)) s).

Definition with_content (c : json) (m : message) : message :=
  {| id := id m; sender := sender m; content := c; timestamp := timestamp m;
     parsedResponse := parsedResponse m |}.

Definition with_parsed (p : json) (m : message) : message :=
  {| id := id m; sender := sender m; content := content m; timestamp := timestamp m;
     parsedResponse := Some p |}.

(** [setMessages(u)]. *)
Definition queue (u : upd) : M unit :=
  modify (fun s => set_pending (pending s ++ [u]) s).

(** The updaters of lines 153-160 and 176-184: [lastMessage =
    newMessages[length - 1]; if (lastMessage && lastMessage.sender ===
    'assistant') f(lastMessage)]; the copy of the array shares the message
    objects, so [f] mutates the object in place. *)
Definition edit_last_assistant (f : message -> message) (s : st) : st :=
  match last (messages s) with
  | Some (Some l) =>
      match heap s !! l with
      | Some m => match sender m with
                  | Assistant => set_heap (alter f l (heap s)) s
                  | User => s
                  end
      | None => s
      end
  | _ => s
  end.

Definition apply_upd (s : st) (u : upd) : st :=
  match u with
  | AppendMsg l => set_messages (messages s ++ [Some l]) s
  | AppendRef => set_messages (messages s ++ [currentAssistantMessageRef s]) s
  | EditLast => edit_last_assistant (with_content (currentMessageRef s)) s
  | CommitLast parsed reply => edit_last_assistant (fun m => with_content reply (with_parsed parsed m)) s
  end.

(** The render after an event applies the queued updaters. *)
Definition render (s : st) : st := fold_left apply_upd (pending s) (set_pending [] s).

(** A handler that calls [setMessages], followed by the render after its
    event: the updaters run once it has returned or thrown. *)
Definition with_render {A} (m : M A) : M A := fun s =>
  let '(s1, o) := m s in (render s1, o).

Definition setTimeout (cb : timer_cb) (delay : Z) : M nat := fun s =>
  let t := nextTimerId s in
  (set_nextTimerId (S t)
     (set_timers (timers s ++ [{| t_id := t; t_due := clock s + delay; t_cb := cb |}]) s),
   Some t).

Definition clearTimeout (t : nat) : M unit :=
  modify (fun s => set_timers (List.filter (fun x => negb (Nat.eqb (t_id x) t)) (timers s)) s).

(** [Math.random()]: the sequence number of the call. *)
Definition random : M nat := fun s => (set_randomCalls (S (randomCalls s)) s, Some (randomCalls s)).

(** ** handleAdminResponse (lines 85-130) *)

(** [x || d] on a property read. *)
Definition or_default (v : option json) (d : json) : json :=
  match v with
  | Some x => if truthy x then x else d
  | None => d
  end.

(** [Object.entries(config.objects).map(([name, data]) => ({ ... }))]:
    reading [data.fields] throws when [data] is null. *)
Fixpoint convert_objects (ents : list (text * json)) : M (list object_item) :=
  match ents with
  | [] => mret []
  | (name, data) :: rest =>
      now ← gets clock;
      k ← random;
      match get data (txt "fields") with
      | None => throw
      | Some f =>
          items ← convert_objects rest;
          mret ({| o_id := (now, k); o_name := name; o_fields := or_default f (JObj []);
                   o_created_at := now; o_updated_at := now |} :: items)
      end
  end.

(** [Object.entries(config.workflows).map(...)]; [data.steps] is read
    before [data.description], and throws when [data] is null. *)
Fixpoint convert_workflows (config : option json) (ents : list (text * json))
    : M (list workflow_item) :=
  match ents with
  | [] => mret []
  | (name, data) :: rest =>
      now ← gets clock;
      k ← random;
      match get data (txt "steps") with
      | None => throw
      | Some steps =>
          match get data (txt "description") with
          | None => throw
          | Some descr =>
              items ← convert_workflows config rest;
              mret ({| w_id := (now, k); w_name := name; w_steps := or_default steps (JArr []);
                       w_app_id := or_default (get_opt config (txt "app_id")) (JNum num_one);
                       w_created_at := now; w_updated_at := now;
                       w_description := or_default descr (JStr []);
                       w_status := txt "draft" |} :: items)
          end
      end
  end.

Definition section_value (v : option json) : json :=
  match v with Some x => x | None => JNull end.

Definition handleAdminResponse (p : props) (response : json) : M unit :=
  emit (AdminResponseReceived response) ;;
  config ← (match get response (txt "config") with Some c => mret c | None => throw end);
  (if truthy_opt (get_opt config (txt "objects")) && has_onObjectsUpdated p then
     objects ← convert_objects (entries (section_value (get_opt config (txt "objects"))));
     emit (ObjectsUpdated objects)
   else mret ()) ;;
  (if truthy_opt (get_opt config (txt "workflows")) && has_onWorkflowsUpdated p then
     workflows ← convert_workflows config
                   (entries (section_value (get_opt config (txt "workflows"))));
     emit (WorkflowsUpdated workflows)
   else mret ()) ;;
  (if truthy_opt (get_opt config (txt "layout")) && has_onLayoutGenerated p then
     emit (LayoutGenerated (section_value (get_opt config (txt "layout"))))
   else mret ()) ;;
  modify (set_isLoading false) ;;
  modify (set_currentAssistantMessageRef None).

(** ** handleStreamingMessage (lines 132-208) *)

Definition is_admin (ty : option json) : bool :=
  match ty with
  | Some (JStr s) => bool_decide (s = txt "admin")
  | _ => false
  end.

(** Lines 168-197, once [parsed.type && parsed.reply] held; [true] is the
    [return] of the handler. *)
Definition commit (p : props) (parsed : json) (ty : option json) (reply : json) : M bool :=
  let responseKey := stringify parsed in
  lastKey ← gets lastProcessedResponseRef;
  if bool_decide (lastKey = responseKey) then mret true else
  modify (set_lastProcessedResponseRef responseKey) ;;
  modify (set_responseCompletedRef true) ;;
  queue (CommitLast parsed reply) ;;
  cur ← gets currentAssistantMessageRef;
  (match cur with
   | Some l =>
       update_msg l (fun m => with_content reply (with_parsed parsed m)) ;;
       modify (set_currentMessageRef reply)
   | None => mret ()
   end) ;;
  (if is_admin ty then handleAdminResponse p parsed
   else modify (set_isLoading false) ;; modify (set_currentAssistantMessageRef None)) ;;
  mret true.

(** The body of the [try] block (lines 165-198): [JSON.parse] throws on a
    text that is not JSON, [parsed.type] throws on null. *)
Definition try_parse (p : props) (b : text) : M bool :=
  match parse (trim b) with
  | None => throw
  | Some parsed =>
      match get parsed (txt "type") with
      | None => throw
      | Some ty =>
          if truthy_opt ty then
            match get parsed (txt "reply") with
            | None => throw
            | Some rp =>
                match rp with
                | Some r => if truthy r then commit p parsed ty r else mret false
                | None => mret false
                end
            end
          else mret false
      end
  end.

(** [v.length > n] for the value [v] of [currentMessageRef.current]
    ([None]: a TypeError).  Strings and arrays have their own length;
    numbers and booleans have none (undefined > n is false); an object's
    own [length] member is converted by ToNumber and compared; null
    throws. *)
Definition length_exceeds (v : json) (n : nat) : option bool :=
  match v with
  | JNull => None
  | JBool _ | JNum _ => Some false
  | JStr s => Some (Nat.ltb n (length s))
  | JArr l => Some (Nat.ltb n (length l))
  | JObj ms =>
      match assoc (txt "length") ms with
      | None => Some false
      | Some lv =>
          match to_number lv with
          | None => None
          | Some None => Some false
          | Some (Some x) => Some (num_gt x (Z.of_nat n))
          end
      end
  end.

(** Lines 163-207: the parse attempt and the length ceiling, on the
    buffer [b]. *)
Definition hsm_tail (p : props) (b : text) : M unit :=
  returned ← try_catch (try_parse p b) (mret false);
  if (returned : bool) then mret () else
  cur_text ← gets currentMessageRef;
  ex ← lift (length_exceeds cur_text 10000);
  if (ex : bool) then
    modify (set_isLoading false) ;;
    modify (set_currentAssistantMessageRef None) ;;
    modify (set_responseCompletedRef true)
  else mret ().

(** Lines 139-207, after the latch check. *)
Definition hsm_body (p : props) (chunk : text) : M unit :=
  buf0 ← gets currentMessageRef;
  t ← lift (to_js_string buf0);
  let b := t ++ chunk in
  modify (set_currentMessageRef (JStr b)) ;;
  cur ← gets currentAssistantMessageRef;
  (match cur with
   | None =>
       now ← gets clock;
       l ← alloc {| id := now; sender := Assistant; content := JStr b; timestamp := now;
                    parsedResponse := None |};
       modify (set_currentAssistantMessageRef (Some l)) ;;
       queue AppendRef
   | Some l =>
       update_msg l (with_content (JStr b)) ;;
       queue EditLast
   end) ;;
  hsm_tail p b.

Definition handleStreamingMessage (p : props) (chunk : text) : M unit :=
  completed ← gets responseCompletedRef;
  if (completed : bool) then mret () else
  with_render (hsm_body p chunk).

(** ** sendMessage (lines 210-244) *)

(** The frame sent to the backend (lines 230-243). *)
Definition ws_frame (content : text) : text :=
  stringify (JObj [(txt "messages",
                    JArr [JObj [(txt "role", JStr (txt "user")); (txt "content", JStr content)]]);
                   (txt "context", JObj [(txt "session_id", JStr (txt "default"))])]).

(** [WebSocket.send]: throws InvalidStateError while CONNECTING, queues
    the frame when OPEN, discards it when CLOSING or CLOSED. *)
Definition ws_send (payload : text) : M unit := fun s =>
  match wsRef s with
  | Some i =>
      match sockets s !! i with
      | Some CONNECTING => (s, None)
      | Some OPEN => (set_outbox (outbox s ++ [(i, payload)]) s, Some tt)
      | _ => (s, Some tt)
      end
  | None => (s, None)
  end.

Definition sendMessage (content : text) : M unit :=
  ws ← gets wsRef;
  connected ← gets isConnected;
  match ws with
  | None => mret ()
  | Some _ =>
      if negb connected then mret () else
      with_render (
        now ← gets clock;
        l ← alloc {| id := now; sender := User; content := JStr content; timestamp := now;
                     parsedResponse := None |};
        queue (AppendMsg l) ;;
        modify (set_isLoading true) ;;
        modify (set_currentMessageRef (JStr [])) ;;
        modify (set_currentAssistantMessageRef None) ;;
        modify (set_responseCompletedRef false) ;;
        ws_send (ws_frame content))
  end.

(** ** Connection management (lines 38-83, 246-261) *)

Definition set_socket (i : nat) (r : ready_state) : M unit :=
  modify (fun s => set_sockets (<[i := r]> (sockets s)) s).

Definition connect : M unit :=
  ws ← gets wsRef;
  socks ← gets sockets;
  match ws with
  | Some i => if bool_decide (socks !! i = Some OPEN) then mret () else
              modify (set_sockets (socks ++ [CONNECTING])) ;;
              modify (set_wsRef (Some (length socks)))
  | None => modify (set_sockets (socks ++ [CONNECTING])) ;;
            modify (set_wsRef (Some (length socks)))
  end.

Definition onopen : M unit :=
  modify (set_isConnected true) ;;
  t ← gets reconnectTimeoutRef;
  match t with
  | Some t' => clearTimeout t' ;; modify (set_reconnectTimeoutRef None)
  | None => mret ()
  end.

Definition onclose (close_code : Z) : M unit :=
  modify (set_isConnected false) ;;
  if Z.eqb close_code 1000 then mret () else
  t ← setTimeout ReconnectCb 3000;
  modify (set_reconnectTimeoutRef (Some t)).

Definition onerror : M unit := modify (set_isConnected false).

(** [WebSocket.close()] with no code: CONNECTING and OPEN sockets start
    closing.  The close event that follows carries the code of the
    server's closing frame, 1005 when it echoes a frame without code, or
    1006 when the connection fails. *)
Definition ws_close (i : nat) : M unit := fun s =>
  match sockets s !! i with
  | Some CONNECTING | Some OPEN => set_socket i CLOSING s
  | _ => (s, Some tt)
  end.

Definition disconnect : M unit :=
  ws ← gets wsRef;
  (match ws with Some i => ws_close i | None => mret () end) ;;
  t ← gets reconnectTimeoutRef;
  match t with
  | Some t' => clearTimeout t' ;; modify (set_reconnectTimeoutRef None)
  | None => mret ()
  end.

(** ** The loading timeout (lines 264-274) *)

(** The timer's callback. *)
Definition loading_timeout : M unit :=
  modify (set_isLoading false) ;;
  modify (set_currentAssistantMessageRef None).

(** The effect with dependency [isLoading], run after a render in which
    [isLoading] changed from [before]: the cleanup of the run with
    [isLoading] true clears its timer; a run with [isLoading] true starts
    a 30 s timer. *)
Definition loading_effect (before : bool) : M unit :=
  after ← gets isLoading;
  if Bool.eqb before after then mret () else
  lt ← gets loadingTimer;
  (if before then
     match lt with Some t => clearTimeout t | None => mret () end ;;
     modify (set_loadingTimer None)
   else mret ()) ;;
  if after then
    t ← setTimeout LoadingTimeoutCb 30000;
    modify (set_loadingTimer (Some t))
  else mret ().

(** ** Events *)

Inductive event : Type :=
| Send (content : text)             (* the UI calls sendMessage *)
| Connect                           (* the UI calls connect *)
| Disconnect                        (* the UI calls disconnect *)
| SocketOpen (i : nat)              (* socket i opens *)
| SocketMessage (i : nat) (chunk : text)  (* socket i receives a message *)
| SocketClose (i : nat) (close_code : Z)  (* socket i closes *)
| SocketError (i : nat)             (* the connection of socket i fails *)
| Tick (t : Z)                      (* the clock advances to t *)
| TimerFires (t : nat).             (* the callback of timer t runs *)

Definition find_timer (t : nat) (s : st) : option timer :=
  find (fun x => Nat.eqb (t_id x) t) (timers s).

Definition run_timer (p : props) (t : nat) : M unit := fun s =>
  match find_timer t s with
  | Some x =>
      if Z.leb (t_due x) (clock s) then
        let s' := set_timers (List.filter (fun y => negb (Nat.eqb (t_id y) t)) (timers s)) s in
        match t_cb x with
        | ReconnectCb => connect s'
        | LoadingTimeoutCb => loading_timeout s'
        end
      else (s, Some tt)
  | None => (s, Some tt)
  end.

(** A socket that has closed, or was never created. *)
Definition gone (i : nat) (s : st) : bool :=
  bool_decide (sockets s !! i = Some CLOSED) || bool_decide (sockets s !! i = None).

(** What the browser does on an event, and the handler it runs.  Opening
    sets readyState OPEN before [onopen]; closing sets CLOSED before
    [onclose]; a failed connection sets CLOSED, fires [onerror], then
    [onclose] with code 1006.  Events the browser cannot deliver in [s] (a
    socket event in the wrong readyState, a clock going back) change
    nothing. *)
Definition handler (p : props) (e : event) : M unit := fun s =>
  match e with
  | Send c => sendMessage c s
  | Connect => connect s
  | Disconnect => disconnect s
  | SocketOpen i =>
      if bool_decide (sockets s !! i = Some CONNECTING) then (set_socket i OPEN ;; onopen) s
      else (s, Some tt)
  | SocketMessage i c =>
      if bool_decide (sockets s !! i = Some OPEN) then handleStreamingMessage p c s
      else (s, Some tt)
  | SocketClose i code =>
      if gone i s then (s, Some tt) else (set_socket i CLOSED ;; onclose code) s
  | SocketError i =>
      if gone i s then (s, Some tt)
      else let '(s1, _) := (set_socket i CLOSED ;; onerror) s in onclose 1006 s1
  | Tick t => if Z.leb (clock s) t then (set_clock t s, Some tt) else (s, Some tt)
  | TimerFires t => run_timer p t s
  end.

(** One event and the render after it: an exception escaping the handler
    leaves the state it reached, and the loading effect still runs. *)
Definition step (p : props) (s : st) (e : event) : st :=
  let '(s1, _) := handler p e s in
  fst (loading_effect (isLoading s) s1).

Definition run (p : props) (s : st) (es : list event) : st := fold_left (step p) es s.

(** The mount effect (lines 256-261) calls [connect]. *)
Definition mounted : st := fst (connect init).

(** ** Vocabulary of the properties *)

(** The parsed envelope a buffer closes on: the value [JSON.parse] gives
    for the trimmed buffer when its [type] and [reply] are truthy. *)
Definition envelope (b : text) : option json :=
  match parse (trim b) with
  | Some v =>
      match get v (txt "type"), get v (txt "reply") with
      | Some ty, Some rp => if truthy_opt ty && truthy_opt rp then Some v else None
      | _, _ => None
      end
  | None => None
  end.

(** The [messages] list as its consumers see it: message objects, [None]
    for a null entry. *)
Definition view (s : st) : list (option message) :=
  map (fun o => match o with Some l => heap s !! l | None => None end) (messages s).

(** ** Vocabulary of the proofs *)

(** [m] relates every state to the state it leaves, by [R]. *)
Definition frame (R : st -> st -> Prop) {A} (m : M A) : Prop := forall s, R s (fst (m s)).

(** The component [f] of the state is left as it is. *)
Definition same {A} (f : st -> A) (s s' : st) : Prop := f s' = f s.

End Hook.

(** * The callers of the hook, and the vocabulary of further properties *)
Module Callers.
Import Json Hook.

(** ** The request [sendMessage] serialises (lines 230-240) *)

(** [wsMessage]; [ws_frame content] is its JSON.stringify. *)
Definition ws_request (content : text) : json :=
  JObj [(txt "messages",
         JArr [JObj [(txt "role", JStr (txt "user")); (txt "content", JStr content)]]);
        (txt "context", JObj [(txt "session_id", JStr (txt "default"))])].

(** ** Values JSON.stringify and JSON.parse carry unchanged *)

(** No number (JSON.stringify prints a number in its shortest round-trip
    form, which the proofs below do not reason about), and in every object
    distinct keys none of which is an array index (JSON.stringify lists
    those first). *)
Fixpoint plain (v : json) : bool :=
  match v with
  | JNull | JBool _ | JStr _ => true
  | JNum _ => false
  | JArr l => forallb plain l
  | JObj ms =>
      forallb (fun m => negb (is_array_index m.1) && plain m.2) ms
      && bool_decide (NoDup (map fst ms))
  end.

(** A bound on the fuel [parse_value] spends on [stringify v]. *)
Fixpoint weight (v : json) : nat :=
  match v with
  | JArr l => 2 + length l + list_sum (map weight l)
  | JObj ms => 2 + length ms + list_sum (map (fun m => weight m.2) ms)
  | _ => 1
  end.

(** Induction on JSON values, through the items of arrays and objects. *)
Section json_ind'.
Variable P : json -> Prop.
Hypothesis HNull : P JNull.
Hypothesis HBool : forall b, P (JBool b).
Hypothesis HNum : forall x, P (JNum x).
Hypothesis HStr : forall s, P (JStr s).
Hypothesis HArr : forall l, Forall P l -> P (JArr l).
Hypothesis HObj : forall ms, Forall (fun m => P m.2) ms -> P (JObj ms).

Fixpoint json_ind' (v : json) : P v :=
  match v with
  | JNull => HNull
  | JBool b => HBool b
  | JNum l => HNum l
  | JStr s => HStr s
  | JArr l => HArr l ((fix go (l : list json) : Forall P l :=
                        match l with
                        | [] => @List.Forall_nil _ P
                        | x :: l' => @List.Forall_cons _ P x l' (json_ind' x) (go l')
                        end) l)
  | JObj ms => HObj ms ((fix go (ms : list (text * json)) : Forall (fun m => P m.2) ms :=
                        match ms with
                        | [] => @List.Forall_nil _ (fun m => P m.2)
                        | m :: ms' =>
                            @List.Forall_cons _ (fun m => P m.2) m ms' (json_ind' m.2) (go ms')
                        end) ms)
  end.
End json_ind'.

(** The first code units JSON.stringify gives a value other than a number:
    n, t, f, the quote, [ and {. *)
Definition heads : list N := [110; 116; 102; 34; 91; 123]%N.

(** One serialised object member. *)
Definition member_text (m : text * json) : text := quote m.1 ++ txt ":" ++ stringify m.2.

(** ** ChatPanel (src/src/components/ChatPanel.tsx) *)

(** ChatPanel (line 106) and UserView (line 83) give the hook no consumer
    callback. *)
Definition no_consumers : props := mkProps false false false.

(** [handleSendMessage] (lines 124-129) on the hook state and the
    [inputValue] state, which it returns.  An exception thrown by
    [sendMessage] skips [setInputValue("")] and propagates. *)
Definition handleSendMessage (inputValue : text) (s : st) : st * text * option unit :=
  if bool_decide (trim inputValue = []) || isLoading s then (s, inputValue, Some tt) else
  match sendMessage inputValue s with
  | (s', Some _) => (s', [], Some tt)
  | (s', None) => (s', inputValue, None)
  end.

(** ** AppView (src/src/components/ChatList.tsx, lines 986-1076) *)

(** The [selectedWorkflow] state: a workflow, with the [layout] field the
    layout callback spreads into it. *)
Record selection : Type := mkSelection {
  sel_workflow : workflow_item;
  sel_layout : option json
}.

(** The part of AppView's state its hook callbacks change. *)
Record appview : Type := mkAppView {
  av_workflows : list workflow_item;  (* [workflows], line 991 *)
  av_objects : list object_item;  (* [objects], line 992 *)
  av_tab : text;  (* [activeTab], line 1020 *)
  av_selected : option selection  (* [selectedWorkflow], line 1021 *)
}.

Definition appview_init : appview := mkAppView [] [] (txt "overview") None.

(** The callbacks of lines 1055-1075 applied to one call of the hook.
    [captured] is [selectedWorkflow] as the callbacks see it: the value of
    the render that created them.  The hook's socket handlers are created
    by its mount effect, so they call the callbacks of AppView's first
    render, where [selectedWorkflow] is null. *)
Definition appview_callback (captured : option selection) (a : appview) (o : output) : appview :=
  match o with
  | WorkflowsUpdated ws =>
      let a1 := mkAppView (av_workflows a ++ ws) (av_objects a) (av_tab a) (av_selected a) in
      match captured, ws with
      | None, w :: _ => mkAppView (av_workflows a1) (av_objects a1) (txt "workflows")
                                  (Some (mkSelection w None))
      | _, _ => a1
      end
  | ObjectsUpdated os => mkAppView (av_workflows a) (av_objects a ++ os) (av_tab a) (av_selected a)
  | LayoutGenerated l =>
      match captured with
      | Some _ =>
          mkAppView (av_workflows a) (av_objects a) (av_tab a)
            (match av_selected a with
             | Some prev => Some (mkSelection (sel_workflow prev) (Some l))
             | None => None
             end)
      | None => a
      end
  | AdminResponseReceived _ => a
  end.

(** AppView after the hook's calls [os], in order, with the callbacks of
    its first render. *)
Definition appview_after (os : list output) (a : appview) : appview :=
  fold_left (appview_callback None) os a.

(** A call of the workflows callback with at least one workflow. *)
Definition selects (o : output) : bool :=
  match o with WorkflowsUpdated (_ :: _) => true | _ => false end.

End Callers.

(** * Concrete runs of the hook *)
Module Scenarios.
Import Json Hook.

(** JSON text written with an apostrophe standing for the double quote. *)
Definition jtext (s : string) : text :=
  map (fun c => if is_char 39 c then 34%N else c) (txt s).

(** A consumer for every callback. *)
Definition P : props := mkProps true true true.

(** The hook after its socket opened. *)
Definition connected : st := run P mounted [SocketOpen 0].

Definition hi_fragments : list text :=
  [jtext "{'type':'continue',"; jtext "'reply':'Hi'"; jtext "}"].

(** A user Turn answered in three fragments. *)
Definition hi_turn : st :=
  run P connected (Send (txt "hello") :: map (SocketMessage 0) hi_fragments).

(** A user Turn answered in one fragment. *)
Definition single_turn : st :=
  run P connected [Send (txt "hello"); SocketMessage 0 (jtext "{'type':'continue','reply':'Hi'}")].

(** A user Turn answered by one fragment of 10001 non-JSON characters. *)
Definition oversize_turn : st :=
  run P connected [Send (txt "hello"); SocketMessage 0 (repeat 97%N 10001)].

(** A second Turn streaming the same envelope as [hi_turn]. *)
Definition repeat_turn : st :=
  run P hi_turn (Send (txt "again") :: map (SocketMessage 0) hi_fragments).

(** The same, with the closing fragment delivered twice. *)
Definition repeat_turn_twice : st :=
  run P repeat_turn [SocketMessage 0 (jtext "}")].

(** An admin envelope with a workflows section only. *)
Definition workflows_fragment : text :=
  jtext "{'type':'admin','reply':'ok','config':{'workflows':{'w':{'steps':[1]}}}}".

(** The same with a null workflow entry. *)
Definition null_workflow_fragment : text :=
  jtext "{'type':'admin','reply':'ok','config':{'workflows':{'w':null}}}".

Definition null_workflow_run : st :=
  run P connected [Send (txt "make"); SocketMessage 0 null_workflow_fragment].

Definition is_workflows (o : output) : bool :=
  match o with WorkflowsUpdated _ => true | _ => false end.

Definition is_layout (o : output) : bool :=
  match o with LayoutGenerated _ => true | _ => false end.

(** A disconnect, the close event it leads to, and 3000 ms. *)
Definition disconnect_run : st :=
  run P connected [Disconnect; SocketClose 0 1005; Tick 3000; TimerFires 1].

(** An abnormal close, a manual connect, and the reconnect timer firing. *)
Definition reconnect_run : st :=
  run P connected [SocketClose 0 1006; Connect; Tick 3000; TimerFires 1].

(** The loading timeout fires in the middle of a Turn, then the rest of the
    envelope arrives. *)
Definition late_admin_run : st :=
  run P connected [Send (txt "layout"); SocketMessage 0 (jtext "{'reply':'ok',");
                   Tick 30000; TimerFires 1;
                   SocketMessage 0 (jtext "'type':'admin','config':{'layout':[1]}}")].

(** The loading timeout fires between two fragments of one Turn. *)
Definition split_turn_run : st :=
  run P connected [Send (txt "q"); SocketMessage 0 (txt "abc"); Tick 30000; TimerFires 1;
                   SocketMessage 0 (txt "def")].

(** The hook after a send, with no fragment yet. *)
Definition sent_q : st := run P connected [Send (txt "q")].

Definition workflows_section : json :=
  JObj [(txt "w", JObj [(txt "steps", JArr [JNum num_one])])].

Definition workflows_config : json := JObj [(txt "workflows", workflows_section)].

Definition workflows_envelope : json :=
  JObj [(txt "type", JStr (txt "admin")); (txt "reply", JStr (txt "ok"));
        (txt "config", workflows_config)].

End Scenarios.

(** * Facts about the JSON layer *)
Module JsonFacts.
Import Json Callers.

(** ** String.prototype.trim *)

Lemma ltrim_app (x y : text) : ltrim x <> [] -> ltrim (x ++ y) = ltrim x ++ y.
Proof. induction x as [|c x IH]; simpl; [congruence|]. destruct (is_js_ws c); auto. Qed.

Lemma ltrim_nil_app (x y : text) : ltrim x = [] -> ltrim (x ++ y) = ltrim y.
Proof.
  induction x as [|c x IH]; simpl; [auto|]. destruct (is_js_ws c); [auto|discriminate].
Qed.

Lemma ltrim_ws (w x : text) : forallb is_js_ws w = true -> ltrim (w ++ x) = ltrim x.
Proof.
  induction w as [|c w IH]; intros H; [reflexivity|].
  cbn [forallb] in H. apply andb_prop in H as [Hc H].
  cbn [app ltrim]. rewrite Hc. exact (IH H).
Qed.

Lemma rtrim_ws (x w : text) : forallb is_js_ws w = true -> rtrim (x ++ w) = rtrim x.
Proof.
  intros H. unfold rtrim. rewrite rev_app_distr, ltrim_ws; [reflexivity|].
  rewrite forallb_forall in H |- *. intros c Hc. apply H. apply in_rev. exact Hc.
Qed.

Lemma trim_ws (w1 b w2 : text) :
  forallb is_js_ws w1 = true -> forallb is_js_ws w2 = true ->
  trim (w1 ++ b ++ w2) = trim b.
Proof.
  intros H1 H2. unfold trim. rewrite ltrim_ws by exact H1.
  destruct (ltrim b) as [|c r] eqn:Hb.
  - rewrite ltrim_nil_app by exact Hb.
    rewrite <- (app_nil_r w2) at 1. rewrite (ltrim_ws w2 []) by exact H2. reflexivity.
  - rewrite ltrim_app by congruence. rewrite Hb, rtrim_ws by exact H2. reflexivity.
Qed.

(** ** The string literals JSON.stringify writes *)

Lemma hex_digit_val (n : N) : (n < 16)%N -> hex_val (hex_digit n) = Some n.
Proof.
  intros H.
  assert (E : n = 0%N \/ n = 1%N \/ n = 2%N \/ n = 3%N \/ n = 4%N \/ n = 5%N \/ n = 6%N \/
              n = 7%N \/ n = 8%N \/ n = 9%N \/ n = 10%N \/ n = 11%N \/ n = 12%N \/
              n = 13%N \/ n = 14%N \/ n = 15%N) by lia.
  repeat destruct E as [->|E]; try reflexivity. subst n. reflexivity.
Qed.

Lemma hex_recompose (c : N) :
  (((c / 4096 * 16 + c / 256 mod 16) * 16 + c / 16 mod 16) * 16 + c mod 16)%N = c.
Proof.
  replace 4096%N with (16 * 16 * 16)%N by reflexivity.
  replace 256%N with (16 * 16)%N by reflexivity.
  rewrite <- !N.Div0.div_div.
  pose proof (N.Div0.div_mod c 16). pose proof (N.Div0.div_mod (c / 16) 16).
  pose proof (N.Div0.div_mod (c / 16 / 16) 16). lia.
Qed.

Lemma parse_str_body_unicode (c : N) (x : text) : (c < 65536)%N ->
  parse_str_body (unicode_escape c ++ x) =
  match parse_str_body x with Some (t, r) => Some (c :: t, r) | None => None end.
Proof.
  intros H. unfold unicode_escape. cbn [app parse_str_body].
  change (is_char 34 92) with false. change (is_char 92 92) with true.
  change (simple_escape 117) with (@None N). change (is_char 117 117) with true.
  cbv iota beta.
  rewrite !hex_digit_val by (first [apply N.mod_lt; lia | apply N.Div0.div_lt_upper_bound; lia]).
  rewrite hex_recompose. reflexivity.
Qed.

Lemma parse_str_body_copy (c : N) (x : text) :
  (32 <= c)%N -> c <> 34%N -> c <> 92%N ->
  parse_str_body (c :: x) =
  match parse_str_body x with Some (t, r) => Some (c :: t, r) | None => None end.
Proof.
  intros H1 H2 H3. cbn [parse_str_body]. unfold is_char.
  rewrite (proj2 (N.eqb_neq c 34) H2), (proj2 (N.eqb_neq c 92) H3).
  replace (N.ltb c 32) with false by (symmetry; apply N.ltb_ge; exact H1). reflexivity.
Qed.

Lemma parse_str_body_escape (c : N) (x : text) :
  parse_str_body (escape_char c ++ x) =
  match parse_str_body x with Some (t, r) => Some (c :: t, r) | None => None end.
Proof.
  unfold escape_char.
  destruct (N.eqb_spec c 8) as [->|H8]; [reflexivity|].
  destruct (N.eqb_spec c 9) as [->|H9]; [reflexivity|].
  destruct (N.eqb_spec c 10) as [->|H10]; [reflexivity|].
  destruct (N.eqb_spec c 12) as [->|H12]; [reflexivity|].
  destruct (N.eqb_spec c 13) as [->|H13]; [reflexivity|].
  destruct (N.eqb_spec c 34) as [->|H34]; [reflexivity|].
  destruct (N.eqb_spec c 92) as [->|H92]; [reflexivity|].
  destruct (N.ltb_spec c 32) as [Hl|Hl].
  - apply parse_str_body_unicode. lia.
  - apply parse_str_body_copy; assumption.
Qed.

(** A string literal is read back as the code units it was written from,
    lone surrogates included. *)
Lemma parse_str_body_quote (t rest : text) :
  parse_str_body (quote_body t ++ 34%N :: rest) = Some (t, rest).
Proof.
  remember (length t) as n eqn:Hn. revert t Hn.
  induction n as [n IH] using lt_wf_ind. intros t Hn.
  destruct t as [|c r]; [reflexivity|].
  cbn [quote_body].
  destruct (is_high c) eqn:Hh.
  - unfold is_high in Hh. apply andb_prop in Hh as [Ha Hb].
    apply N.leb_le in Ha. apply N.leb_le in Hb.
    destruct r as [|d r'].
    + rewrite parse_str_body_unicode by lia. reflexivity.
    + destruct (is_low d) eqn:Hl.
      * unfold is_low in Hl. apply andb_prop in Hl as [Hc Hd].
        apply N.leb_le in Hc. apply N.leb_le in Hd.
        cbn [app]. rewrite parse_str_body_copy by lia.
        rewrite parse_str_body_copy by lia.
        rewrite (IH (length r')) by (cbn in Hn; lia || reflexivity). reflexivity.
      * rewrite <- app_assoc, parse_str_body_unicode by lia.
        rewrite (IH (length (d :: r'))) by (cbn in Hn |- *; lia || reflexivity). reflexivity.
  - destruct (is_low c) eqn:Hl.
    + unfold is_low in Hl. apply andb_prop in Hl as [Hc Hd].
      apply N.leb_le in Hc. apply N.leb_le in Hd.
      rewrite <- app_assoc, parse_str_body_unicode by lia.
      rewrite (IH (length r)) by (cbn in Hn; lia || reflexivity). reflexivity.
    + rewrite <- app_assoc, parse_str_body_escape.
      rewrite (IH (length r)) by (cbn in Hn; lia || reflexivity). reflexivity.
Qed.

(** ** JSON.parse takes back what JSON.stringify writes *)

Lemma own_order_plain {A} (ms : list (text * A)) :
  Forall (fun m => is_array_index m.1 = false) ms -> own_order ms = ms.
Proof.
  intros H. unfold own_order.
  assert (H1 : List.filter (fun m => is_array_index m.1) ms = []).
  { clear -H. induction H as [|m ms Hm _ IH]; [reflexivity|].
    cbn [List.filter]. rewrite Hm. exact IH. }
  assert (H2 : List.filter (fun m => negb (is_array_index m.1)) ms = ms).
  { clear -H. induction H as [|m ms Hm _ IH]; [reflexivity|].
    cbn [List.filter]. rewrite Hm. cbn [negb]. rewrite IH. reflexivity. }
  rewrite H1, H2. reflexivity.
Qed.

Lemma stringify_obj (ms : list (text * json)) :
  Forall (fun m => is_array_index m.1 = false) ms ->
  stringify (JObj ms) =
  txt "{" ++ join (txt ",") (map (fun m => quote m.1 ++ txt ":" ++ stringify m.2) ms) ++ txt "}".
Proof.
  intros H. cbn [stringify]. rewrite own_order_plain.
  - rewrite map_map. reflexivity.
  - rewrite Forall_map. exact H.
Qed.

Lemma stringify_head v : plain v = true ->
  exists c s, stringify v = c :: s /\ In c heads.
Proof.
  destruct v as [|[]| | | |]; cbn [plain]; try discriminate; intros _;
    (eexists _, _; split; [reflexivity|]); unfold heads; simpl; tauto.
Qed.

Lemma join_cons sep y ys :
  join sep (y :: ys) = y ++ match ys with [] => [] | _ => sep ++ join sep ys end.
Proof. destruct ys; [rewrite app_nil_r|]; reflexivity. Qed.

Lemma elems_step f s acc : parse_elems (S f) s acc =
  match parse_value f s with
  | Some (v, r1) =>
      match skip_ws r1 with
      | e :: r2 => if is_char 44 e then parse_elems f r2 (acc ++ [v])
                   else if is_char 93 e then Some (JArr (acc ++ [v]), r2) else None
      | [] => None
      end
  | None => None
  end.
Proof. reflexivity. Qed.

Lemma members_quote f k W acc : parse_members (S f) (quote k ++ W) acc =
  match skip_ws W with
  | d :: r2 =>
      if is_char 58 d then
        match parse_value f r2 with
        | Some (v, r3) =>
            match skip_ws r3 with
            | e :: r4 =>
                if is_char 44 e then parse_members f r4 (obj_set acc k v)
                else if is_char 125 e then Some (JObj (obj_set acc k v), r4)
                else None
            | [] => None
            end
        | None => None
        end
      else None
  | [] => None
  end.
Proof.
  assert (E : quote k ++ W = 34%N :: (quote_body k ++ 34%N :: W)).
  { unfold quote. rewrite <- !app_assoc. reflexivity. }
  rewrite E. cbn [parse_members].
  change (skip_ws (34%N :: ?X)) with (34%N :: X).
  change (is_char 34 34) with true. cbv iota.
  rewrite parse_str_body_quote. reflexivity.
Qed.

Lemma obj_set_fresh acc k v : k ∉ map fst acc -> obj_set acc k v = acc ++ [(k, v)].
Proof.
  induction acc as [|[k' v'] acc IH]; intros Hk; [reflexivity|].
  cbn [obj_set]. cbn [map fst] in Hk.
  rewrite decide_False by (intros ->; apply Hk; left).
  rewrite IH; [reflexivity|]. intros H; apply Hk; right; exact H.
Qed.

Lemma elems_ok (l : list json) :
  l <> [] ->
  Forall (fun x => forall f r, weight x <= f ->
            parse_value f (stringify x ++ r) = Some (x, r)) l ->
  forall acc f r, length l + list_sum (map weight l) <= f ->
  parse_elems f (join (txt ",") (map stringify l) ++ txt "]" ++ r) acc
  = Some (JArr (acc ++ l), r).
Proof.
  intros Hne HP. induction HP as [|x l Hx HP IH]; [congruence|]. clear Hne.
  intros acc f r Hf. destruct f as [|f]; [cbn in Hf; lia|].
  rewrite elems_step. cbn [map]. rewrite join_cons. simpl in Hf.
  destruct l as [|y l].
  - rewrite app_nil_r, (Hx f) by (simpl in Hf; lia). reflexivity.
  - rewrite <- !app_assoc, (Hx f) by lia.
    transitivity (parse_elems f (join (txt ",") (map stringify (y :: l)) ++ txt "]" ++ r)
                    (acc ++ [x])); [reflexivity|].
    rewrite IH by (congruence || (simpl in *; lia)).
    rewrite <- app_assoc. reflexivity.
Qed.

Lemma member_step f k W acc : parse_members (S f) (quote k ++ txt ":" ++ W) acc =
  match parse_value f W with
  | Some (v, r3) =>
      match skip_ws r3 with
      | e :: r4 =>
          if is_char 44 e then parse_members f r4 (obj_set acc k v)
          else if is_char 125 e then Some (JObj (obj_set acc k v), r4)
          else None
      | [] => None
      end
  | None => None
  end.
Proof. rewrite members_quote. reflexivity. Qed.

Lemma members_ok (ms : list (text * json)) :
  ms <> [] ->
  Forall (fun m => forall f r, weight m.2 <= f ->
            parse_value f (stringify m.2 ++ r) = Some (m.2, r)) ms ->
  forall acc f r, NoDup (map fst (acc ++ ms)) ->
  length ms + list_sum (map (fun m => weight m.2) ms) <= f ->
  parse_members f (join (txt ",") (map member_text ms) ++ txt "}" ++ r) acc
  = Some (JObj (acc ++ ms), r).
Proof.
  intros Hne HP. induction HP as [|[k v] ms Hx HP IH]; [congruence|]. clear Hne.
  intros acc f r Hnd Hf. destruct f as [|f]; [cbn in Hf; lia|].
  cbn [map]. rewrite join_cons. simpl in Hf, Hx.
  assert (Hk : k ∉ map fst acc).
  { rewrite map_app in Hnd. apply NoDup_app in Hnd as (_ & Hd & _).
    intros Hin. apply (Hd k Hin). left. }
  unfold member_text at 1. cbn [fst snd]. rewrite <- !app_assoc, member_step.
  destruct ms as [|m ms].
  - rewrite app_nil_r, (Hx f) by lia.
    transitivity (Some (JObj (obj_set acc k v), r)); [reflexivity|].
    rewrite obj_set_fresh by exact Hk. reflexivity.
  - rewrite (Hx f) by lia.
    transitivity (parse_members f (join (txt ",") (map member_text (m :: ms)) ++ txt "}" ++ r)
                    (obj_set acc k v)); [reflexivity|].
    rewrite obj_set_fresh by exact Hk.
    rewrite IH; [rewrite <- app_assoc; reflexivity|congruence| |].
    + rewrite <- app_assoc. exact Hnd.
    + simpl in *; lia.
Qed.

Lemma parse_value_stringify v : plain v = true ->
  forall f r, weight v <= f -> parse_value f (stringify v ++ r) = Some (v, r).
Proof.
  induction v as [| b | x | s | l IH | ms IH] using json_ind'; intros Hp f r Hf;
    destruct f as [|f]; try (cbn in Hf; lia).
  - reflexivity.
  - destruct b; reflexivity.
  - discriminate.
  - transitivity (match parse_str_body (quote_body s ++ 34%N :: r)
                  with Some (t, rest) => Some (JStr t, rest) | None => None end);
      [|].
    { change (stringify (JStr s) ++ r) with (34%N :: ((quote_body s ++ [34%N]) ++ r)).
      rewrite <- app_assoc. reflexivity. }
    rewrite parse_str_body_quote. reflexivity.
  - cbn [plain] in Hp. rewrite forallb_forall in Hp.
    destruct l as [|x l]; [reflexivity|].
    destruct (stringify_head x) as (c & s & Hs & Hc); [apply Hp; left; reflexivity|].
    transitivity (parse_elems f (join (txt ",") (map stringify (x :: l)) ++ txt "]" ++ r) []).
    { change (stringify (JArr (x :: l)))
        with (txt "[" ++ join (txt ",") (map stringify (x :: l)) ++ txt "]").
      cbn [map]. rewrite join_cons, Hs, <- !app_assoc.
      unfold heads in Hc. repeat destruct Hc as [<-|Hc]; try reflexivity; destruct Hc. }
    rewrite elems_ok; [reflexivity|congruence| |].
    + rewrite List.Forall_forall. intros y Hy.
      exact (proj1 (List.Forall_forall _ _) IH y Hy (Hp y Hy)).
    + cbn [weight] in Hf. lia.
  - cbn [plain] in Hp. apply andb_prop in Hp as [H1 H2].
    rewrite forallb_forall in H1. apply bool_decide_eq_true in H2.
    destruct ms as [|m ms]; [reflexivity|].
    rewrite stringify_obj.
    2:{ rewrite List.Forall_forall. intros y Hy. specialize (H1 y Hy).
        destruct (is_array_index y.1); [discriminate|reflexivity]. }
    transitivity (parse_members f (join (txt ",") (map member_text (m :: ms)) ++ txt "}" ++ r) []).
    { cbn [map]. rewrite !join_cons. unfold member_text. rewrite <- !app_assoc. reflexivity. }
    rewrite members_ok; [reflexivity|congruence| | exact H2 |].
    + rewrite List.Forall_forall. intros y Hy.
      apply (proj1 (List.Forall_forall _ _) IH y Hy).
      specialize (H1 y Hy). apply andb_prop in H1 as [_ H1]. exact H1.
    + cbn [weight] in Hf. lia.
Qed.

Lemma join_length xs :
  list_sum (map length xs) + length xs <= length (join (txt ",") xs) + 1.
Proof.
  induction xs as [|x xs IH]; [cbn; lia|].
  rewrite join_cons. destruct xs as [|y xs]; cbn [map list_sum length] in *.
  - rewrite length_app. cbn. lia.
  - rewrite !length_app. change (length (txt ",")) with 1. simpl list_sum in *. lia.
Qed.

Lemma sum_le {A} (g h : A -> nat) l :
  Forall (fun x => g x <= S (2 * h x)) l ->
  list_sum (map g l) <= length l + 2 * list_sum (map h l).
Proof. induction 1; simpl; lia. Qed.

Lemma sum_ge {A} (g h : A -> nat) c l :
  (forall x, c + h x <= g x) -> c * length l + list_sum (map h l) <= list_sum (map g l).
Proof.
  intros H. induction l as [|x l IH]; [simpl; lia|].
  specialize (H x). simpl in IH |- *. rewrite Nat.mul_succ_r. lia.
Qed.

Lemma weight_le v : plain v = true -> weight v <= S (2 * length (stringify v)).
Proof.
  induction v as [| b | x | s | l IH | ms IH] using json_ind'; intros Hp;
    try (cbn [weight]; lia).
  - cbn [plain] in Hp. rewrite forallb_forall in Hp.
    cbn [weight stringify]. rewrite !length_app.
    pose proof (join_length (map stringify l)) as HJ.
    rewrite map_map, length_map in HJ.
    assert (HS : list_sum (map weight l) <=
                 length l + 2 * list_sum (map (fun x => length (stringify x)) l)).
    { apply sum_le. rewrite List.Forall_forall. intros y Hy.
      exact (proj1 (List.Forall_forall _ _) IH y Hy (Hp y Hy)). }
    simpl in HJ, HS |- *. lia.
  - cbn [plain] in Hp. apply andb_prop in Hp as [H1 _].
    rewrite forallb_forall in H1.
    cbn [weight]. rewrite stringify_obj.
    2:{ rewrite List.Forall_forall. intros y Hy. specialize (H1 y Hy).
        destruct (is_array_index y.1); [discriminate|reflexivity]. }
    rewrite !length_app.
    pose proof (join_length (map (fun m => quote m.1 ++ txt ":" ++ stringify m.2) ms)) as HJ.
    rewrite map_map, length_map in HJ.
    assert (HS : list_sum (map (fun m => weight m.2) ms) <=
                 length ms + 2 * list_sum (map (fun m => length (stringify m.2)) ms)).
    { apply sum_le. rewrite List.Forall_forall. intros y Hy.
      apply (proj1 (List.Forall_forall _ _) IH y Hy).
      specialize (H1 y Hy). apply andb_prop in H1 as [_ H1]. exact H1. }
    assert (HG : 3 * length ms + list_sum (map (fun m => length (stringify m.2)) ms) <=
                 list_sum (map (fun m => length (quote m.1 ++ txt ":" ++ stringify m.2)) ms)).
    { apply sum_ge. intros [k w]. cbn [fst snd]. unfold quote. rewrite !length_app.
      simpl. lia. }
    simpl in HJ, HS, HG |- *. lia.
Qed.

Theorem parse_stringify v : plain v = true -> parse (stringify v) = Some v.
Proof.
  intros Hp. unfold parse.
  pose proof (parse_value_stringify v Hp (S (2 * length (stringify v))) [] (weight_le v Hp)) as E.
  rewrite app_nil_r in E. rewrite E. reflexivity.
Qed.

Lemma stringify_inj v w : plain v = true -> plain w = true ->
  stringify v = stringify w -> v = w.
Proof.
  intros Hv Hw E. apply parse_stringify in Hv. apply parse_stringify in Hw.
  rewrite E in Hv. congruence.
Qed.

Lemma ws_frame_request t : Hook.ws_frame t = stringify (ws_request t).
Proof. reflexivity. Qed.

Lemma plain_request t : plain (ws_request t) = true.
Proof. reflexivity. Qed.

End JsonFacts.

(** * Facts about the hook *)
Module HookFacts.
Import Json Hook JsonFacts Callers.

(** ** Running the monad *)

Ltac mred := unfold mbind, M_bind, mret, M_ret, gets, modify, emit, queue, lift, alloc in *;
  cbn [messages heap isConnected isLoading wsRef sockets currentMessageRef
  currentAssistantMessageRef reconnectTimeoutRef lastProcessedResponseRef
  responseCompletedRef loadingTimer timers nextTimerId randomCalls clock outbox outputs pending
  set_messages set_heap set_isConnected set_isLoading set_wsRef set_sockets
  set_currentMessageRef set_currentAssistantMessageRef set_reconnectTimeoutRef
  set_lastProcessedResponseRef set_responseCompletedRef set_loadingTimer set_timers
  set_nextTimerId set_randomCalls set_clock set_outbox set_outputs set_pending
  id sender content timestamp parsedResponse fst snd] in *.

(** ** Frame conditions, by the structure of the code *)

Section Frame.
Context (R : st -> st -> Prop) `{!Reflexive R} `{!Transitive R}.

Lemma frame_ret {A} (a : A) : frame R (mret a).
Proof. intros s. reflexivity. Qed.

Lemma frame_bind {A B} (m : M A) (k : A -> M B) :
  frame R m -> (forall a, frame R (k a)) -> frame R (m ≫= k).
Proof.
  intros Hm Hk s. unfold mbind, M_bind. specialize (Hm s).
  destruct (m s) as [s' [a|]]; simpl in *; [|exact Hm].
  etransitivity; [exact Hm|apply Hk].
Qed.

Lemma frame_gets {A} (f : st -> A) : frame R (gets f).
Proof. intros s. reflexivity. Qed.

Lemma frame_modify (f : st -> st) : (forall s, R s (f s)) -> frame R (modify f).
Proof. intros H s. apply H. Qed.

Lemma frame_throw {A} : frame R (@throw A).
Proof. intros s. reflexivity. Qed.

Lemma frame_lift {A} (o : option A) : frame R (lift o).
Proof. intros s. unfold lift. destruct o; reflexivity. Qed.

Lemma frame_try_catch {A} (m h : M A) : frame R m -> frame R h -> frame R (try_catch m h).
Proof.
  intros Hm Hh s. unfold try_catch. specialize (Hm s).
  destruct (m s) as [s' [a|]]; simpl in *; [exact Hm|].
  etransitivity; [exact Hm|apply Hh].
Qed.

(** The render applies updaters, which set [messages] and [heap]. *)
Hypothesis R_messages : forall x s, R s (set_messages x s).
Hypothesis R_heap : forall x s, R s (set_heap x s).
Hypothesis R_pending : forall x s, R s (set_pending x s).

Lemma frame_edit_last_assistant f s : R s (edit_last_assistant f s).
Proof. unfold edit_last_assistant. repeat case_match; auto; reflexivity. Qed.

Lemma frame_render s : R s (render s).
Proof.
  unfold render. etransitivity; [apply (R_pending [] s)|].
  generalize (set_pending [] s). induction (pending s) as [|u us IH]; intros s1; [reflexivity|].
  cbn [fold_left]. etransitivity; [|apply IH].
  destruct u; cbn [apply_upd]; auto using frame_edit_last_assistant.
Qed.

Lemma frame_with_render {A} (m : M A) : frame R m -> frame R (with_render m).
Proof.
  intros Hm s. unfold with_render. specialize (Hm s). destruct (m s) as [s1 o].
  cbn [fst] in *. etransitivity; [exact Hm|apply frame_render].
Qed.

End Frame.

Ltac frame_tac :=
  repeat match goal with
  | |- frame _ (_ ≫= _) => apply frame_bind; [| |try intros ?]
  | |- frame _ (mret _) => apply frame_ret
  | |- frame _ (gets _) => apply frame_gets
  | |- frame _ throw => apply frame_throw
  | |- frame _ (lift _) => apply frame_lift
  | |- frame _ (try_catch _ _) => apply frame_try_catch
  | |- frame _ (modify _) => apply frame_modify; intros ?
  | |- frame _ (if ?b then _ else _) => destruct b
  | |- frame _ (match ?x with _ => _ end) => destruct x
  end.

Global Instance same_refl {A} (f : st -> A) : Reflexive (same f).
Proof. intros s. reflexivity. Qed.
Global Instance same_trans {A} (f : st -> A) : Transitive (same f).
Proof. intros a b c H1 H2. unfold same in *. congruence. Qed.

Ltac setter_tac := intros; unfold same; cbn; auto.

(** A component the updaters do not touch is the same after a render. *)
Ltac render_keeps :=
  repeat match goal with
  | |- context [?f (render ?s)] =>
      let E := fresh "E" in
      assert (E : f (render s) = f s)
        by (apply (frame_render (same f)); solve [setter_tac]);
      rewrite E; clear E
  end.

Lemma frame_random R : (forall s, R s (set_randomCalls (S (randomCalls s)) s)) -> frame R random.
Proof. intros H s. apply H. Qed.

Lemma frame_setTimeout R cb d :
  (forall s, R s (set_nextTimerId (S (nextTimerId s))
                (set_timers (timers s ++ [{| t_id := nextTimerId s; t_due := clock s + d;
                                             t_cb := cb |}]) s))) ->
  frame R (setTimeout cb d).
Proof. intros H s. apply H. Qed.

Lemma frame_ws_close R `{!Reflexive R} i :
  (forall s, R s (set_sockets (<[i:=CLOSING]> (sockets s)) s)) -> frame R (ws_close i).
Proof.
  intros H s. unfold ws_close. destruct (sockets s !! i) as [[]|]; simpl; auto; reflexivity.
Qed.

Lemma frame_convert_objects R `{!Reflexive R} `{!Transitive R} ents :
  (forall s, R s (set_randomCalls (S (randomCalls s)) s)) -> frame R (convert_objects ents).
Proof.
  intros Hr. induction ents as [|[name data] rest IH]; simpl; frame_tac; auto.
Qed.

Lemma frame_convert_workflows R `{!Reflexive R} `{!Transitive R} config ents :
  (forall s, R s (set_randomCalls (S (randomCalls s)) s)) ->
  frame R (convert_workflows config ents).
Proof.
  intros Hr. induction ents as [|[name data] rest IH]; simpl; frame_tac; auto.
Qed.

Lemma frame_handleAdminResponse R `{!Reflexive R} `{!Transitive R} p r :
  (forall s, R s (set_randomCalls (S (randomCalls s)) s)) ->
  (forall s o, R s (set_outputs (outputs s ++ [o]) s)) ->
  (forall s, R s (set_isLoading false s)) ->
  (forall s, R s (set_currentAssistantMessageRef None s)) ->
  frame R (handleAdminResponse p r).
Proof.
  intros Hr Ho Hl Hc. unfold handleAdminResponse, emit. frame_tac; auto;
    first [apply frame_convert_objects | apply frame_convert_workflows]; auto.
Qed.

(** The connection and timer code touches neither the conversation nor
    the latch. *)
Section ConnectionFrame.
Context (R : st -> st -> Prop) `{!Reflexive R} `{!Transitive R}.
Hypothesis R_sockets : forall x s, R s (set_sockets x s).
Hypothesis R_wsRef : forall x s, R s (set_wsRef x s).
Hypothesis R_isConnected : forall x s, R s (set_isConnected x s).
Hypothesis R_isLoading : forall x s, R s (set_isLoading x s).
Hypothesis R_timers : forall x s, R s (set_timers x s).
Hypothesis R_nextTimerId : forall x s, R s (set_nextTimerId x s).
Hypothesis R_reconnect : forall x s, R s (set_reconnectTimeoutRef x s).
Hypothesis R_loadingTimer : forall x s, R s (set_loadingTimer x s).
Hypothesis R_clock : forall x s, R s (set_clock x s).
Hypothesis R_drop : forall s, R s (set_currentAssistantMessageRef None s).

Lemma frame_connect : frame R connect.
Proof. unfold connect. frame_tac; auto. Qed.

Lemma frame_clearTimeout t : frame R (clearTimeout t).
Proof. unfold clearTimeout. frame_tac; auto. Qed.

Lemma frame_setTimeout' cb d : frame R (setTimeout cb d).
Proof.
  apply frame_setTimeout. intros s. etransitivity; [|apply R_nextTimerId]. apply R_timers.
Qed.

Lemma frame_set_socket i r : frame R (set_socket i r).
Proof. unfold set_socket. frame_tac; auto. Qed.

Lemma frame_onopen : frame R onopen.
Proof. unfold onopen. frame_tac; auto using frame_clearTimeout. Qed.

Lemma frame_onclose code : frame R (onclose code).
Proof. unfold onclose. frame_tac; auto using frame_setTimeout'. Qed.

Lemma frame_onerror : frame R onerror.
Proof. unfold onerror. frame_tac; auto. Qed.

Lemma frame_disconnect : frame R disconnect.
Proof.
  unfold disconnect. frame_tac; auto using frame_clearTimeout.
  apply frame_ws_close; auto.
Qed.

Lemma frame_loading_timeout : frame R loading_timeout.
Proof. unfold loading_timeout. frame_tac; auto. Qed.

Lemma frame_loading_effect b : frame R (loading_effect b).
Proof. unfold loading_effect. frame_tac; auto using frame_clearTimeout, frame_setTimeout'. Qed.

Lemma frame_run_timer p t : frame R (run_timer p t).
Proof.
  intros s. unfold run_timer. destruct (find_timer t s) as [x|]; [|reflexivity].
  destruct (Z.leb (t_due x) (clock s)); [|reflexivity].
  destruct (t_cb x); (etransitivity; [apply R_timers|]);
    [apply frame_connect | apply frame_loading_timeout].
Qed.

(** Every event but a send and a streamed fragment. *)
Lemma frame_handler_other p e :
  (forall c, e <> Send c) -> (forall i c, e <> SocketMessage i c) -> frame R (handler p e).
Proof.
  intros H1 H2 s. unfold handler. destruct e.
  - exfalso. eapply H1. reflexivity.
  - apply frame_connect.
  - apply frame_disconnect.
  - case_match; [|reflexivity].
    exact (frame_bind R _ _ (frame_set_socket i OPEN) (fun _ => frame_onopen) s).
  - exfalso. eapply H2. reflexivity.
  - case_match; [reflexivity|].
    exact (frame_bind R _ _ (frame_set_socket i CLOSED) (fun _ => frame_onclose close_code) s).
  - case_match; [reflexivity|].
    pose proof (frame_bind R (set_socket i CLOSED) (fun _ => onerror)
                  (frame_set_socket i CLOSED) (fun _ => frame_onerror) s) as F.
    destruct ((set_socket i CLOSED ;; onerror) s) as [s1 o]. cbn [fst] in F.
    etransitivity; [exact F|apply frame_onclose].
  - case_match; [apply R_clock|reflexivity].
  - apply frame_run_timer.
Qed.

End ConnectionFrame.

(** ** The render *)

Lemma render_nil s : pending s = [] -> render s = s.
Proof. intros H. unfold render. rewrite H. destruct s; cbn in *; subst; reflexivity. Qed.

Lemma render_append s l : pending s = [AppendMsg l] ->
  messages (render s) = messages s ++ [Some l] /\ heap (render s) = heap s.
Proof. intros H. unfold render. rewrite H. split; reflexivity. Qed.

(** ** The streaming handler *)

Lemma hsm_latched p c s :
  responseCompletedRef s = true -> handleStreamingMessage p c s = (s, Some tt).
Proof. intros H. unfold handleStreamingMessage. mred. rewrite H. reflexivity. Qed.

Lemma hsm_open p c s :
  responseCompletedRef s = false -> handleStreamingMessage p c s = with_render (hsm_body p c) s.
Proof. intros H. unfold handleStreamingMessage. mred. rewrite H. reflexivity. Qed.

Lemma loading_effect_same b s : isLoading s = b -> loading_effect b s = (s, Some tt).
Proof. intros <-. unfold loading_effect. mred. destruct (isLoading s); reflexivity. Qed.

Lemma step_message_latched p s i c :
  responseCompletedRef s = true -> step p s (SocketMessage i c) = s.
Proof.
  intros H. unfold step, handler.
  destruct (bool_decide (sockets s !! i = Some OPEN));
    [rewrite hsm_latched by exact H|]; simpl;
    rewrite loading_effect_same by reflexivity; reflexivity.
Qed.

Lemma step_same_loading p s e :
  isLoading (fst (handler p e s)) = isLoading s -> step p s e = fst (handler p e s).
Proof.
  unfold step. destruct (handler p e s) as [s1 o]. cbn [fst]. intros H.
  rewrite loading_effect_same by exact H. reflexivity.
Qed.

(** Lines 139-162: the buffer grows by the fragment, and the rest of the
    handler runs on it. *)
Lemma hsm_body_split p c s b :
  to_js_string (currentMessageRef s) = Some b ->
  exists s2, hsm_body p c s = hsm_tail p (b ++ c) s2 /\
    outputs s2 = outputs s /\ lastProcessedResponseRef s2 = lastProcessedResponseRef s /\
    responseCompletedRef s2 = responseCompletedRef s.
Proof.
  intros Hb. unfold hsm_body. mred. rewrite Hb. mred.
  destruct (currentAssistantMessageRef s); unfold update_msg; mred;
    (eexists; split; [reflexivity|]); cbn; auto.
Qed.

Lemma try_parse_env_ty p b s E :
  envelope b = Some E ->
  exists ty r, get E (txt "type") = Some ty /\ get E (txt "reply") = Some (Some r) /\
    try_parse p b s = commit p E ty r s.
Proof.
  unfold envelope, try_parse.
  destruct (parse (trim b)) as [v|]; [|discriminate].
  destruct (get v (txt "type")) as [ty|] eqn:Ety; [|discriminate].
  destruct (get v (txt "reply")) as [[r|]|] eqn:Er;
    try (destruct (truthy_opt ty); discriminate).
  destruct (truthy_opt ty) eqn:Ht; [|discriminate]. simpl.
  destruct (truthy r) eqn:Hr; [|discriminate]. intros H. injection H as <-.
  exists ty, r. auto.
Qed.

Lemma commit_dup p E ty r s :
  lastProcessedResponseRef s = stringify E -> commit p E ty r s = (s, Some true).
Proof.
  intros H. unfold commit. mred. rewrite bool_decide_true by exact H. reflexivity.
Qed.

Ltac hAR_frame f p r s5 :=
  let F := fresh "F" in
  pose proof (frame_handleAdminResponse (same f) p r
                ltac:(setter_tac) ltac:(setter_tac) ltac:(setter_tac) ltac:(setter_tac) s5) as F;
  unfold same in F.

Lemma commit_new_key p E ty r s :
  lastProcessedResponseRef s <> stringify E ->
  lastProcessedResponseRef (fst (commit p E ty r s)) = stringify E.
Proof.
  intros Hne. unfold commit. mred. rewrite bool_decide_false by congruence. mred.
  destruct (currentAssistantMessageRef s) as [l|]; unfold update_msg; mred;
    (destruct (is_admin ty); mred;
     [ match goal with |- context [handleAdminResponse p E ?s5] =>
         hAR_frame lastProcessedResponseRef p E s5;
         destruct (handleAdminResponse p E s5) as [s6 [[]|]] end; cbn in *; auto
     | reflexivity ]).
Qed.

(** An admin envelope with a new fingerprint: the latch is set, and
    [handleAdminResponse] runs. *)
Lemma commit_admin p E ty r s :
  lastProcessedResponseRef s <> stringify E -> is_admin ty = true ->
  exists s4, outputs s4 = outputs s /\ responseCompletedRef s4 = true /\
    commit p E ty r s = match handleAdminResponse p E s4 with
                        | (s5, Some _) => (s5, Some true)
                        | (s5, None) => (s5, None)
                        end.
Proof.
  intros Hne Ha. unfold commit. mred. rewrite bool_decide_false by congruence. mred.
  rewrite Ha.
  destruct (currentAssistantMessageRef s) as [l|]; unfold update_msg; mred;
    (eexists; split; [|split; [|reflexivity]]); reflexivity.
Qed.

Lemma hsm_tail_committed p b s s' :
  try_parse p b s = (s', Some true) -> hsm_tail p b s = (s', Some tt).
Proof. intros H. unfold hsm_tail. mred. unfold try_catch. rewrite H. reflexivity. Qed.

(** After a parse attempt that did not return, the ceiling check touches
    neither the outputs nor a set latch. *)
Lemma hsm_tail_thrown p b s s5 :
  try_parse p b s = (s5, None) ->
  outputs (fst (hsm_tail p b s)) = outputs s5 /\
  (responseCompletedRef s5 = true -> responseCompletedRef (fst (hsm_tail p b s)) = true).
Proof.
  intros H. unfold hsm_tail. mred. unfold try_catch. rewrite H. mred.
  destruct (length_exceeds (currentMessageRef s5) 10000) as [[]|]; mred; cbn; auto.
Qed.

(** ** sendMessage *)

Lemma set_outbox_same s : set_outbox (outbox s) s = s.
Proof. destruct s; reflexivity. Qed.

Lemma ws_send_shape x s : exists ob o, ws_send x s = (set_outbox ob s, o).
Proof.
  unfold ws_send. repeat case_match; eexists _, _; try reflexivity;
    rewrite set_outbox_same; reflexivity.
Qed.

(** Over a socket, while connected: the body of lines 219-228 runs, then
    the frame goes to [WebSocket.send], then the render. *)
Lemma sendMessage_split t s i : wsRef s = Some i -> isConnected s = true ->
  exists s1, sendMessage t s = with_render (ws_send (ws_frame t)) s1 /\
    wsRef s1 = Some i /\ sockets s1 = sockets s /\ outbox s1 = outbox s /\
    isLoading s1 = true /\ messages s1 = messages s /\
    pending s1 = pending s ++ [AppendMsg (length (heap s))] /\
    heap s1 = heap s ++ [{| id := clock s; sender := User; content := JStr t;
                            timestamp := clock s; parsedResponse := None |}] /\
    responseCompletedRef s1 = false /\ currentMessageRef s1 = JStr [] /\
    currentAssistantMessageRef s1 = None /\
    lastProcessedResponseRef s1 = lastProcessedResponseRef s /\ outputs s1 = outputs s /\
    timers s1 = timers s /\ nextTimerId s1 = nextTimerId s /\ clock s1 = clock s.
Proof.
  intros Hw Hc. unfold sendMessage. mred. rewrite Hw, Hc. cbn [negb].
  eexists. split.
  - unfold with_render. mred. reflexivity.
  - cbn. repeat split; assumption || reflexivity.
Qed.

Lemma sendMessage_proceeds t s :
  wsRef s <> None -> isConnected s = true ->
  let s0 := fst (sendMessage t s) in
  responseCompletedRef s0 = false /\ currentMessageRef s0 = JStr [] /\
  currentAssistantMessageRef s0 = None /\
  lastProcessedResponseRef s0 = lastProcessedResponseRef s /\
  outputs s0 = outputs s /\ isLoading s0 = true /\
  timers s0 = timers s /\ nextTimerId s0 = nextTimerId s /\ clock s0 = clock s.
Proof.
  intros Hw Hc. destruct (wsRef s) as [i|] eqn:Hi; [|congruence].
  destruct (sendMessage_split t s i Hi Hc)
    as (s1 & -> & _ & _ & _ & H1 & _ & _ & _ & H2 & H3 & H4 & H5 & H6 & H7 & H8 & H9).
  unfold with_render. destruct (ws_send_shape (ws_frame t) s1) as (ob & o & ->).
  cbn [fst]. render_keeps. cbn. repeat split; assumption.
Qed.

Lemma sendMessage_blocked t s :
  wsRef s = None \/ isConnected s = false -> sendMessage t s = (s, Some tt).
Proof.
  intros H. unfold sendMessage. mred.
  destruct H as [-> | ->]; [reflexivity|]. destruct (wsRef s); reflexivity.
Qed.

(** The frame is dropped by a socket that is closing or closed. *)
Lemma sendMessage_dropped t s i :
  wsRef s = Some i -> isConnected s = true -> pending s = [] ->
  sockets s !! i = Some CLOSING \/ sockets s !! i = Some CLOSED ->
  let s' := fst (sendMessage t s) in
  snd (sendMessage t s) = Some tt /\ outbox s' = outbox s /\ isLoading s' = true /\
  messages s' = messages s ++ [Some (length (heap s))] /\
  heap s' = heap s ++ [{| id := clock s; sender := User; content := JStr t;
                          timestamp := clock s; parsedResponse := None |}].
Proof.
  intros Hw Hc Hp Hr.
  destruct (sendMessage_split t s i Hw Hc)
    as (s1 & -> & H1 & H2 & H3 & H4 & H5 & H6 & H7 & _).
  rewrite Hp in H6. unfold with_render, ws_send. rewrite H1, H2.
  destruct (render_append s1 (length (heap s)) H6) as [G1 G2].
  destruct Hr as [-> | ->]; cbn [fst snd];
    render_keeps; rewrite G1, G2, H5, H7; auto.
Qed.

(** ** handleAdminResponse *)

Lemma set_randomCalls_same s : set_randomCalls (randomCalls s) s = s.
Proof. destruct s; reflexivity. Qed.

Lemma set_randomCalls_twice n n' s : set_randomCalls n (set_randomCalls n' s) = set_randomCalls n s.
Proof. destruct s; reflexivity. Qed.

Lemma convert_objects_ok ents :
  Forall (fun e => snd e <> JNull) ents ->
  forall s, exists n ol, convert_objects ents s = (set_randomCalls n s, Some ol) /\
    map o_name ol = map fst ents.
Proof.
  induction 1 as [|[name data] rest Hd _ IH]; intros s.
  - exists (randomCalls s), []. rewrite set_randomCalls_same. split; reflexivity.
  - cbn [convert_objects]. unfold random. mred.
    assert (Hs : exists f, get data (txt "fields") = Some f).
    { destruct data; cbn in Hd |- *; [congruence|eauto..]. }
    destruct Hs as (f & ->).
    destruct (IH (set_randomCalls (S (randomCalls s)) s)) as (n & ol & -> & Hol).
    exists n. eexists. rewrite set_randomCalls_twice. split; [reflexivity|].
    cbn [map o_name fst]. rewrite Hol. reflexivity.
Qed.

Lemma convert_objects_null ents k :
  In (k, JNull) ents ->
  forall s, exists n, convert_objects ents s = (set_randomCalls n s, None).
Proof.
  induction ents as [|[name data] rest IH]; intros Hin s; [destruct Hin|].
  cbn [convert_objects]. unfold random, throw. mred.
  destruct (get data (txt "fields")) as [f|] eqn:Hg.
  - destruct Hin as [Heq|Hin].
    + injection Heq as -> ->. discriminate Hg.
    + destruct (IH Hin (set_randomCalls (S (randomCalls s)) s)) as (n & ->).
      exists n. rewrite set_randomCalls_twice. reflexivity.
  - exists (S (randomCalls s)). reflexivity.
Qed.

Lemma convert_workflows_ok cfg ents :
  Forall (fun e => snd e <> JNull) ents ->
  forall s, exists n wl, convert_workflows cfg ents s = (set_randomCalls n s, Some wl) /\
    map w_name wl = map fst ents.
Proof.
  induction 1 as [|[name data] rest Hd _ IH]; intros s.
  - exists (randomCalls s), []. rewrite set_randomCalls_same. split; reflexivity.
  - cbn [convert_workflows]. unfold random. mred.
    assert (Hs : exists st dn, get data (txt "steps") = Some st /\
                   get data (txt "description") = Some dn).
    { destruct data; cbn in Hd |- *; [congruence|eauto..]. }
    destruct Hs as (st0 & dn & -> & ->).
    destruct (IH (set_randomCalls (S (randomCalls s)) s)) as (n & wl & -> & Hwl).
    exists n. eexists. rewrite set_randomCalls_twice. split; [reflexivity|].
    cbn [map w_name fst]. rewrite Hwl. reflexivity.
Qed.

Lemma convert_workflows_null cfg ents :
  Exists (fun e => snd e = JNull) ents ->
  forall s, exists n, convert_workflows cfg ents s = (set_randomCalls n s, None).
Proof.
  induction ents as [|[name data] rest IH]; intros Hex s; [inversion Hex|].
  cbn [convert_workflows]. unfold random, throw. mred.
  destruct (get data (txt "steps")) as [st0|] eqn:Hg;
    [|exists (S (randomCalls s)); reflexivity].
  destruct (get data (txt "description")) as [dn|];
    [|exists (S (randomCalls s)); reflexivity].
  inversion Hex as [? ? Hd|? ? Hrest]; subst.
  - cbn in Hd. subst data. discriminate Hg.
  - destruct (IH Hrest (set_randomCalls (S (randomCalls s)) s)) as (n & ->).
    exists n. rewrite set_randomCalls_twice. reflexivity.
Qed.

Lemma handleAdminResponse_workflows p E cfg W s :
  get E (txt "config") = Some cfg ->
  truthy_opt (get_opt cfg (txt "objects")) = false ->
  truthy_opt (get_opt cfg (txt "layout")) = false ->
  get_opt cfg (txt "workflows") = Some W -> truthy W = true ->
  Forall (fun e => snd e <> JNull) (entries W) ->
  has_onWorkflowsUpdated p = true ->
  exists wl s', handleAdminResponse p E s = (s', Some tt) /\
    outputs s' = outputs s ++ [AdminResponseReceived E; WorkflowsUpdated wl] /\
    map w_name wl = map fst (entries W) /\
    isLoading s' = false /\ responseCompletedRef s' = responseCompletedRef s.
Proof.
  intros Hc Ho Hl Hw HW Hents Hp.
  unfold handleAdminResponse. mred. rewrite Hc. mred.
  rewrite Ho, Hl, Hw. cbn [andb truthy_opt section_value]. rewrite HW, Hp. cbn [andb]. mred.
  match goal with |- context [convert_workflows cfg (entries W) ?s1] =>
    destruct (convert_workflows_ok cfg (entries W) Hents s1) as (n & wl & -> & Hwl) end.
  mred. exists wl. eexists. split; [reflexivity|].
  cbn. rewrite <- app_assoc. auto.
Qed.

Lemma handleAdminResponse_null_workflow p E cfg W s :
  get E (txt "config") = Some cfg ->
  truthy_opt (get_opt cfg (txt "objects")) = false ->
  get_opt cfg (txt "workflows") = Some W -> truthy W = true ->
  Exists (fun e => snd e = JNull) (entries W) ->
  has_onWorkflowsUpdated p = true ->
  exists s', handleAdminResponse p E s = (s', None) /\
    outputs s' = outputs s ++ [AdminResponseReceived E] /\
    responseCompletedRef s' = responseCompletedRef s.
Proof.
  intros Hc Ho Hw HW Hex Hp.
  unfold handleAdminResponse. mred. rewrite Hc. mred.
  rewrite Ho, Hw. cbn [andb truthy_opt section_value]. rewrite HW, Hp. cbn [andb]. mred.
  match goal with |- context [convert_workflows cfg (entries W) ?s1] =>
    destruct (convert_workflows_null cfg (entries W) Hex s1) as (n & ->) end.
  eexists. split; [reflexivity|]. cbn. auto.
Qed.

Lemma handleAdminResponse_quiet p r cfg s :
  get r (txt "config") = Some cfg ->
  truthy_opt (get_opt cfg (txt "objects")) && has_onObjectsUpdated p = false ->
  truthy_opt (get_opt cfg (txt "workflows")) && has_onWorkflowsUpdated p = false ->
  truthy_opt (get_opt cfg (txt "layout")) && has_onLayoutGenerated p = false ->
  handleAdminResponse p r s =
    (set_currentAssistantMessageRef None
       (set_isLoading false (set_outputs (outputs s ++ [AdminResponseReceived r]) s)),
     Some tt).
Proof.
  intros Hc Ho Hw Hl. unfold handleAdminResponse. mred. rewrite Hc. mred.
  rewrite Ho, Hw, Hl. mred. reflexivity.
Qed.

(** ** AppView's callbacks *)

Lemma appview_keep os a :
  forallb (fun o => negb (selects o)) os = true ->
  av_selected (appview_after os a) = av_selected a /\ av_tab (appview_after os a) = av_tab a.
Proof.
  unfold appview_after. revert a.
  induction os as [|o os IH]; intros a H; [split; reflexivity|].
  cbn [forallb] in H. apply andb_true_iff in H as [Ho H].
  cbn [fold_left]. destruct (IH (appview_callback None a o) H) as [-> ->].
  destruct o as [r|ol|[|w ws]|l]; try discriminate Ho; split; reflexivity.
Qed.

End HookFacts.

(** * The claims *)
Module Claims.
Import Json Hook Scenarios JsonFacts HookFacts.

(** C1 (code bug): when the whole envelope arrives in one fragment after
    a send, the updater that appends the assistant message runs at the
    render, after the commit has already cleared
    [currentAssistantMessageRef]: the list gains a null entry instead of
    the assistant message, although the Turn is closed. *)
Lemma C1_single_fragment_null_entry :
  view single_turn =
    [Some {| id := 0; sender := User; content := JStr (txt "hello"); timestamp := 0;
             parsedResponse := None |}; None] /\
  responseCompletedRef single_turn = true.
Proof. split; vm_compute; reflexivity. Qed.

(** C2: once the latch is set, a delivered fragment leaves the whole state
    unchanged; no event but a send clears the latch, and a send over an
    open connection clears it. *)
Theorem C2_latch_ignores_fragments (p : props) (s : st) :
  responseCompletedRef s = true ->
  (forall i c, step p s (SocketMessage i c) = s) /\
  (forall e, (forall c, e <> Send c) -> responseCompletedRef (step p s e) = true) /\
  (forall c, wsRef s <> None -> isConnected s = true ->
     responseCompletedRef (step p s (Send c)) = false).
Proof.
  intros Hl.
  assert (G : forall s1, responseCompletedRef (fst (loading_effect (isLoading s) s1)) =
                         responseCompletedRef s1).
  { intros s1. apply (frame_loading_effect (same responseCompletedRef)); solve [setter_tac]. }
  split; [|split].
  - intros i c. apply step_message_latched. exact Hl.
  - assert (Ho : forall e, (forall c, e <> Send c) -> (forall i c, e <> SocketMessage i c) ->
                 responseCompletedRef (step p s e) = true).
    { intros e He Hm.
      assert (F : frame (same responseCompletedRef) (handler p e)).
      { apply (frame_handler_other (same responseCompletedRef));
          first [exact He | exact Hm | solve [setter_tac]]. }
      unfold step. specialize (F s). unfold same in F.
      destruct (handler p e s) as [s1 o]. rewrite G. cbn in F. congruence. }
    intros e He. destruct e as [t| | |i|i c|i code|i|t|t];
      try (apply Ho; [exact He|intros ? ? ?; discriminate]).
    rewrite step_message_latched; exact Hl.
  - intros c Hw Hc. unfold step. cbn [handler].
    destruct (sendMessage_proceeds c s Hw Hc) as (H1 & _).
    destruct (sendMessage c s) as [s1 o]. rewrite G. exact H1.
Qed.

Lemma C2_latch_ignores_fragments_witness :
  (forall i c, step P hi_turn (SocketMessage i c) = hi_turn) /\
  (forall e, (forall c, e <> Send c) -> responseCompletedRef (step P hi_turn e) = true) /\
  (forall c, wsRef hi_turn <> None -> isConnected hi_turn = true ->
     responseCompletedRef (step P hi_turn (Send c)) = false).
Proof. apply C2_latch_ignores_fragments. vm_compute. reflexivity. Defined.

(** C3 (code bug): the fingerprint survives the send.  A second Turn whose
    stream completes the same envelope as the first commits nothing: the
    latch stays open, nothing is dispatched, and the assistant message
    keeps the raw JSON text with no parsed response. *)
Lemma C3_repeated_envelope_not_committed :
  (match last (view repeat_turn) with
   | Some (Some m) => Some (sender m, content m, parsedResponse m)
   | _ => None
   end) = Some (Assistant, JStr (concat hi_fragments), None) /\
  responseCompletedRef repeat_turn = false /\ outputs repeat_turn = outputs hi_turn.
Proof. vm_compute. split; [reflexivity|split; reflexivity]. Qed.

(** C4 (code bug): in that second Turn, delivering the closing fragment
    again appends it to the buffer and to the displayed message. *)
Lemma C4_second_delivery_visible :
  (match last (view repeat_turn_twice) with
   | Some (Some m) => Some (content m)
   | _ => None
   end) = Some (JStr (concat hi_fragments ++ jtext "}")) /\
  outputs repeat_turn_twice = outputs repeat_turn.
Proof. vm_compute. split; reflexivity. Qed.

(** C5 (code bug): a first fragment over the ceiling force-closes the
    Turn, but the ceiling clears [currentAssistantMessageRef] before the
    render runs the updater that appends the assistant message: the list
    gains a null entry, and the raw text is not shown. *)
Lemma C5_oversize_fragment_null_entry :
  view oversize_turn =
    [Some {| id := 0; sender := User; content := JStr (txt "hello"); timestamp := 0;
             parsedResponse := None |}; None] /\
  responseCompletedRef oversize_turn = true /\ isLoading oversize_turn = false /\
  outputs oversize_turn = [].
Proof. vm_compute. split; [reflexivity|split; [reflexivity|split; reflexivity]]. Qed.

(** C6 (corrected): a fragment that completes an admin envelope with a new
    fingerprint, whose config has a truthy [workflows] section and no
    truthy [objects] or [layout], when a workflow callback is given,
    closes the Turn.  When no workflow entry is null, the admin callback
    and then the workflow callback are called, the latter once, with one
    converted workflow per entry, and loading stops.  When an entry is
    null, the conversion throws after the admin callback: no other
    callback is called. *)
Theorem C6_workflows_only_dispatch (p : props) (s : st) (c b : text) (E : json)
    (cfg : option json) (W : json) :
  responseCompletedRef s = false ->
  to_js_string (currentMessageRef s) = Some b ->
  envelope (b ++ c) = Some E ->
  lastProcessedResponseRef s <> stringify E ->
  get E (txt "type") = Some (Some (JStr (txt "admin"))) ->
  get E (txt "config") = Some cfg ->
  truthy_opt (get_opt cfg (txt "objects")) = false ->
  truthy_opt (get_opt cfg (txt "layout")) = false ->
  get_opt cfg (txt "workflows") = Some W -> truthy W = true ->
  has_onWorkflowsUpdated p = true ->
  let s' := fst (handleStreamingMessage p c s) in
  responseCompletedRef s' = true /\
  (Forall (fun e => snd e <> JNull) (entries W) ->
     exists wl, outputs s' = outputs s ++ [AdminResponseReceived E; WorkflowsUpdated wl] /\
       map w_name wl = map fst (entries W) /\ isLoading s' = false) /\
  (Exists (fun e => snd e = JNull) (entries W) ->
     outputs s' = outputs s ++ [AdminResponseReceived E]).
Proof.
  intros Hl Hb He Hne Hty Hc Ho Hly Hw HW Hp s'. subst s'.
  rewrite hsm_open by exact Hl. unfold with_render.
  destruct (hsm_body_split p c s b Hb) as (s2 & -> & Ho2 & Hk2 & _).
  rewrite <- Hk2 in Hne. rewrite <- Ho2.
  destruct (try_parse_env_ty p (b ++ c) s2 E He) as (ty & r & Hty' & _ & Ep).
  rewrite Hty in Hty'. injection Hty' as <-.
  destruct (commit_admin p E (Some (JStr (txt "admin"))) r s2 Hne) as (s4 & Ho4 & Hl4 & Ec).
  { cbn. apply bool_decide_eq_true. reflexivity. }
  rewrite <- Ho4.
  assert (D : forall e : text * json, {snd e = JNull} + {snd e <> JNull}).
  { intros [k []]; first [left; reflexivity | right; discriminate]. }
  destruct (List.Exists_dec _ (entries W) D) as [Hex|Hnx].
  - destruct (handleAdminResponse_null_workflow p E cfg W s4 Hc Ho Hw HW Hex Hp)
      as (s5 & Eh & Ho5 & Hl5).
    rewrite Eh in Ec. rewrite <- Ep in Ec. cbv beta iota in Ec.
    destruct (hsm_tail_thrown p (b ++ c) s2 s5 Ec) as [T1 T2].
    destruct (hsm_tail p (b ++ c) s2) as [s6 o]. cbn [fst] in *.
    render_keeps. split; [apply T2; congruence|]. split.
    + intros Hall. exfalso. apply Forall_Exists_neg in Hall. contradiction.
    + intros _. rewrite T1, Ho5. reflexivity.
  - assert (Hall : Forall (fun e => snd e <> JNull) (entries W)).
    { apply Forall_Exists_neg. exact Hnx. }
    destruct (handleAdminResponse_workflows p E cfg W s4 Hc Ho Hly Hw HW Hall Hp)
      as (wl & s5 & Eh & Ho5 & Hwl & Hl5 & Hc5).
    rewrite Eh in Ec. rewrite <- Ep in Ec. cbv beta iota in Ec.
    rewrite (hsm_tail_committed p (b ++ c) s2 s5 Ec). cbn [fst].
    render_keeps. split; [congruence|]. split.
    + intros _. exists wl. rewrite Ho5. auto.
    + intros Hex. contradiction.
Qed.

Lemma C6_workflows_only_dispatch_witness :
  let s := fst (sendMessage (txt "m") connected) in
  let s' := fst (handleStreamingMessage P workflows_fragment s) in
  responseCompletedRef s' = true /\
  (Forall (fun e => snd e <> JNull) (entries workflows_section) ->
     exists wl, outputs s' = outputs s ++ [AdminResponseReceived workflows_envelope;
                                           WorkflowsUpdated wl] /\
       map w_name wl = map fst (entries workflows_section) /\ isLoading s' = false) /\
  (Exists (fun e => snd e = JNull) (entries workflows_section) ->
     outputs s' = outputs s ++ [AdminResponseReceived workflows_envelope]).
Proof.
  apply (C6_workflows_only_dispatch P (fst (sendMessage (txt "m") connected)) workflows_fragment []
           workflows_envelope (Some workflows_config) workflows_section);
    try (vm_compute; reflexivity).
  vm_compute. discriminate.
Defined.

(** A workflows-only admin envelope whose single workflow is [null]: the
    conversion throws, and the workflow callback is never called. *)
Lemma C6_null_workflow_not_dispatched :
  existsb is_workflows (outputs null_workflow_run) = false /\
  length (outputs null_workflow_run) = 1 /\
  responseCompletedRef null_workflow_run = true.
Proof. vm_compute. split; [reflexivity|split; reflexivity]. Qed.

(** C7 (corrected): sending with no socket or while not connected is a
    silent no-op: the state is unchanged and the call returns normally,
    with no error. *)
Theorem C7_send_disconnected_noop (t : text) (s : st) :
  wsRef s = None \/ isConnected s = false -> sendMessage t s = (s, Some tt).
Proof. intros H. exact (sendMessage_blocked t s H). Qed.

Lemma C7_send_disconnected_noop_witness :
  sendMessage (txt "hi") mounted = (mounted, Some tt).
Proof. apply C7_send_disconnected_noop. right. vm_compute. reflexivity. Defined.

(** Before any connection, sending returns normally and changes nothing:
    no error is raised. *)
Lemma C7_send_without_socket_no_error :
  wsRef init = None /\ sendMessage (txt "hi") init = (init, Some tt).
Proof. split; vm_compute; reflexivity. Qed.

(** C8 (code bug): [disconnect] calls [close()] with no code, so the close
    event that follows does not carry 1000 and schedules a reconnect: 3000
    ms later a new socket is created.  And [connect] does not cancel a
    pending reconnect: after an abnormal close and a manual [connect], the
    timer still fires and creates a second new socket. *)
Lemma C8_reconnect_after_disconnect :
  sockets disconnect_run = [CLOSED; CONNECTING] /\ wsRef disconnect_run = Some 1 /\
  sockets reconnect_run = [CLOSED; CONNECTING; CONNECTING] /\ wsRef reconnect_run = Some 2.
Proof. vm_compute. split; [reflexivity|split; [reflexivity|split; reflexivity]]. Qed.

(** C9 (code bug): the loading timeout clears the loading flag and the
    message in progress but leaves the latch open: the Turn is not closed,
    and the rest of its envelope, arriving later, is still dispatched (here
    to the layout callback). *)
Lemma C9_timeout_leaves_turn_open :
  let s := run P connected [Send (txt "layout"); SocketMessage 0 (jtext "{'reply':'ok',");
                            Tick 30000; TimerFires 1] in
  isLoading s = false /\ responseCompletedRef s = false /\ outputs s = [] /\
  map is_layout (outputs late_admin_run) = [false; true].
Proof. vm_compute. split; [reflexivity|split; [reflexivity|split; reflexivity]]. Qed.

(** C10 (code bug): after the loading timeout, the next fragment of the
    same Turn finds no message in progress and appends a second assistant
    message, holding the whole buffer, after the first one. *)
Lemma C10_fragment_after_timeout_appends :
  map (option_map (fun m => (sender m, content m))) (view split_turn_run) =
    [Some (User, JStr (txt "q")); Some (Assistant, JStr (txt "abc"));
     Some (Assistant, JStr (txt "abcdef"))].
Proof. vm_compute. reflexivity. Qed.

End Claims.
(** * Further properties of the hook and its callers *)
Module Extras.
Import Json Hook Scenarios JsonFacts HookFacts Callers.

(** X1: the frame [sendMessage] hands to the socket is the JSON text of
    the request object: JSON.parse gives the object back, with the message
    content exactly as passed, whatever UTF-16 code units it holds, lone
    surrogates included. *)
Theorem X1_frame_round_trip (t : text) : parse (ws_frame t) = Some (ws_request t).
Proof. rewrite ws_frame_request. apply parse_stringify, plain_request. Qed.

(** X2: the duplicate check of [handleStreamingMessage] compares envelopes
    by value: when the last fingerprint is that of the envelope [E0], the
    envelope [E] is dropped as a repeat, leaving the state as it is,
    exactly when [E] equals [E0].  Both envelopes are free of numbers and
    have distinct keys, none an array index. *)
Theorem X2_fingerprint_by_value (p : props) (E0 E : json) (ty : option json) (r : json) (s : st) :
  plain E0 = true -> plain E = true -> lastProcessedResponseRef s = stringify E0 ->
  commit p E ty r s = (s, Some true) <-> E = E0.
Proof.
  intros H0 H1 Hl. split.
  - intros Hc. destruct (decide (stringify E = stringify E0)) as [Heq|Hne].
    + apply stringify_inj; assumption.
    + exfalso.
      assert (Hd : lastProcessedResponseRef s <> stringify E) by (rewrite Hl; congruence).
      pose proof (commit_new_key p E ty r s Hd) as Hn.
      rewrite Hc in Hn. cbn [fst] in Hn. congruence.
  - intros ->. apply commit_dup. exact Hl.
Qed.

Lemma X2_fingerprint_by_value_witness :
  let E := JObj [(txt "type", JStr (txt "continue")); (txt "reply", JStr (txt "Hi"))] in
  commit P E (Some (JStr (txt "continue"))) (JStr (txt "Hi")) hi_turn =
    (hi_turn, Some true) <-> E = E.
Proof.
  apply X2_fingerprint_by_value; vm_compute; reflexivity.
Defined.

(** X3: over an OPEN socket, [sendMessage] returns normally and hands the
    socket exactly one frame, the serialised request. *)
Theorem X3_send_open_queues_frame (t : text) (s : st) (i : nat) :
  wsRef s = Some i -> isConnected s = true -> sockets s !! i = Some OPEN ->
  snd (sendMessage t s) = Some tt /\
  outbox (fst (sendMessage t s)) = outbox s ++ [(i, ws_frame t)].
Proof.
  intros Hw Hc Ho.
  destruct (sendMessage_split t s i Hw Hc) as (s1 & -> & H1 & H2 & H3 & _).
  unfold with_render, ws_send. rewrite H1, H2, Ho. cbn [fst snd].
  render_keeps. cbn [outbox set_outbox]. rewrite H3. split; reflexivity.
Qed.

Lemma X3_send_open_queues_frame_witness :
  snd (sendMessage (txt "hello") connected) = Some tt /\
  outbox (fst (sendMessage (txt "hello") connected)) = outbox connected ++ [(0, ws_frame (txt "hello"))].
Proof. apply X3_send_open_queues_frame; vm_compute; reflexivity. Defined.

(** X4: while the hook still counts as connected but its socket is
    CLOSING or CLOSED, [sendMessage] returns normally, shows the user
    message and starts loading, and the frame is silently dropped.  No
    updater is pending before the call, as after any event. *)
Theorem X4_send_closing_drops_frame (t : text) (s : st) (i : nat) :
  wsRef s = Some i -> isConnected s = true -> pending s = [] ->
  sockets s !! i = Some CLOSING \/ sockets s !! i = Some CLOSED ->
  let s' := fst (sendMessage t s) in
  snd (sendMessage t s) = Some tt /\ outbox s' = outbox s /\ isLoading s' = true /\
  messages s' = messages s ++ [Some (length (heap s))] /\
  heap s' = heap s ++ [{| id := clock s; sender := User; content := JStr t;
                          timestamp := clock s; parsedResponse := None |}].
Proof. apply sendMessage_dropped. Qed.

Lemma X4_send_closing_drops_frame_witness :
  let s := run P mounted [SocketOpen 0; Disconnect] in
  let s' := fst (sendMessage (txt "hello") s) in
  snd (sendMessage (txt "hello") s) = Some tt /\ outbox s' = outbox s /\ isLoading s' = true /\
  messages s' = messages s ++ [Some (length (heap s))] /\
  heap s' = heap s ++ [{| id := clock s; sender := User; content := JStr (txt "hello");
                          timestamp := clock s; parsedResponse := None |}].
Proof.
  apply (X4_send_closing_drops_frame (txt "hello") (run P mounted [SocketOpen 0; Disconnect]) 0);
    [vm_compute; reflexivity | vm_compute; reflexivity | vm_compute; reflexivity
    | left; vm_compute; reflexivity].
Defined.

(** X5: while the socket in use is still CONNECTING and the hook counts as
    connected, [sendMessage] shows the user message and starts loading,
    then throws (WebSocket.send raises InvalidStateError); no frame is
    sent.  No updater is pending before the call. *)
Theorem X5_send_connecting_throws (t : text) (s : st) (i : nat) :
  wsRef s = Some i -> isConnected s = true -> pending s = [] ->
  sockets s !! i = Some CONNECTING ->
  let s' := fst (sendMessage t s) in
  snd (sendMessage t s) = None /\ outbox s' = outbox s /\ isLoading s' = true /\
  messages s' = messages s ++ [Some (length (heap s))].
Proof.
  intros Hw Hc Hp Hr.
  destruct (sendMessage_split t s i Hw Hc) as (s1 & -> & H1 & H2 & H3 & H4 & H5 & H6 & _).
  rewrite Hp in H6. destruct (render_append s1 (length (heap s)) H6) as [G1 _].
  unfold with_render, ws_send. rewrite H1, H2, Hr. cbn [fst snd].
  render_keeps. rewrite G1, H5. auto.
Qed.

Lemma X5_send_connecting_throws_witness :
  let s := run P mounted [SocketOpen 0; Disconnect; Connect] in
  let s' := fst (sendMessage (txt "hello") s) in
  snd (sendMessage (txt "hello") s) = None /\ outbox s' = outbox s /\ isLoading s' = true /\
  messages s' = messages s ++ [Some (length (heap s))].
Proof.
  apply (X5_send_connecting_throws (txt "hello") (run P mounted [SocketOpen 0; Disconnect; Connect]) 1);
    vm_compute; reflexivity.
Defined.

(** X6: [disconnect] starts closing an OPEN socket and cancels the
    reconnect timer, but the hook still counts as connected until the close
    event arrives: a message sent meanwhile is shown and starts loading,
    and its frame is dropped without an error.  No updater is pending
    before the calls. *)
Theorem X6_disconnect_then_send (t : text) (s : st) (i : nat) :
  wsRef s = Some i -> isConnected s = true -> pending s = [] -> sockets s !! i = Some OPEN ->
  let s1 := fst (disconnect s) in
  sockets s1 !! i = Some CLOSING /\ reconnectTimeoutRef s1 = None /\
  isConnected s1 = true /\ wsRef s1 = Some i /\
  snd (sendMessage t s1) = Some tt /\ outbox (fst (sendMessage t s1)) = outbox s /\
  isLoading (fst (sendMessage t s1)) = true /\
  messages (fst (sendMessage t s1)) = messages s ++ [Some (length (heap s))].
Proof.
  intros Hw Hc Hp Ho.
  assert (Hi : i < length (sockets s)) by (eapply lookup_lt_Some; exact Ho).
  assert (E : exists s1, fst (disconnect s) = s1 /\ sockets s1 !! i = Some CLOSING /\
            reconnectTimeoutRef s1 = None /\ isConnected s1 = true /\ wsRef s1 = Some i /\
            outbox s1 = outbox s /\ pending s1 = pending s /\ messages s1 = messages s /\
            heap s1 = heap s).
  { unfold disconnect. mred. rewrite Hw. unfold ws_close. rewrite Ho. unfold set_socket. mred.
    destruct (reconnectTimeoutRef s) eqn:Hrt; unfold clearTimeout; mred;
      (eexists; split; [reflexivity|]); cbn;
      rewrite list_lookup_insert_eq by exact Hi; repeat split; auto. }
  destruct E as (s1 & -> & H1 & H2 & H3 & H4 & H5 & H6 & H7 & H8). cbv zeta.
  rewrite Hp in H6.
  destruct (sendMessage_dropped t s1 i H4 H3 H6 (or_introl H1)) as (G1 & G2 & G3 & G4 & _).
  rewrite <- H5, <- H7, <- H8. repeat split; assumption.
Qed.

Lemma X6_disconnect_then_send_witness :
  let s1 := fst (disconnect connected) in
  sockets s1 !! 0 = Some CLOSING /\ reconnectTimeoutRef s1 = None /\
  isConnected s1 = true /\ wsRef s1 = Some 0 /\
  snd (sendMessage (txt "hello") s1) = Some tt /\
  outbox (fst (sendMessage (txt "hello") s1)) = outbox connected /\
  isLoading (fst (sendMessage (txt "hello") s1)) = true /\
  messages (fst (sendMessage (txt "hello") s1)) = messages connected ++ [Some (length (heap connected))].
Proof. apply X6_disconnect_then_send; vm_compute; reflexivity. Defined.

(** X7: the close event of a socket the hook no longer uses still marks
    the hook disconnected, while the socket in use is left as it is; from
    then on [sendMessage] does nothing. *)
Theorem X7_stale_close_blocks_send (p : props) (s : st) (i j : nat) (code : Z)
    (r : ready_state) (t : text) :
  wsRef s = Some j -> i <> j -> sockets s !! i = Some r -> r <> CLOSED ->
  let s' := step p s (SocketClose i code) in
  isConnected s' = false /\ wsRef s' = Some j /\ sockets s' !! j = sockets s !! j /\
  sendMessage t s' = (s', Some tt).
Proof.
  intros Hw Hij Hr Hn.
  set (m := (set_socket i CLOSED ;; onclose code)).
  assert (E : handler p (SocketClose i code) s = m s).
  { cbn [handler]. unfold gone. rewrite Hr, !bool_decide_false by congruence. reflexivity. }
  assert (F : isConnected (fst (m s)) = false /\ wsRef (fst (m s)) = Some j /\
              sockets (fst (m s)) !! j = sockets s !! j /\ isLoading (fst (m s)) = isLoading s).
  { subst m. unfold onclose, set_socket. mred.
    destruct (Z.eqb code 1000); unfold setTimeout; mred; cbn;
      rewrite list_lookup_insert_ne by congruence; auto. }
  cbv zeta. rewrite step_same_loading; rewrite E; [|apply F].
  destruct F as (F1 & F2 & F3 & _). split; [exact F1|]. split; [exact F2|].
  split; [exact F3|]. apply sendMessage_blocked. right. exact F1.
Qed.

Lemma X7_stale_close_blocks_send_witness :
  let s := run P mounted [SocketOpen 0; Disconnect; Connect; SocketOpen 1] in
  let s' := step P s (SocketClose 0 1000) in
  isConnected s' = false /\ wsRef s' = Some 1 /\ sockets s' !! 1 = sockets s !! 1 /\
  sendMessage (txt "hello") s' = (s', Some tt).
Proof.
  apply (X7_stale_close_blocks_send P (run P mounted [SocketOpen 0; Disconnect; Connect; SocketOpen 1])
           0 1 1000 CLOSING (txt "hello")); [vm_compute; reflexivity | discriminate
           | vm_compute; reflexivity | discriminate].
Defined.

(** X8: [connect] while the socket in use is still CONNECTING opens a
    second socket and leaves the first one as it is.  When the first one
    then opens, the hook counts as connected while the socket in use is
    still CONNECTING, so [sendMessage] throws. *)
Theorem X8_connect_while_connecting (p : props) (s : st) (i : nat) (t : text) :
  wsRef s = Some i -> sockets s !! i = Some CONNECTING ->
  let s2 := step p (step p s Connect) (SocketOpen i) in
  sockets s2 !! i = Some OPEN /\ isConnected s2 = true /\
  wsRef s2 = Some (length (sockets s)) /\
  sockets s2 !! length (sockets s) = Some CONNECTING /\
  snd (sendMessage t s2) = None.
Proof.
  intros Hw Hr.
  assert (Hi : i < length (sockets s)) by (eapply lookup_lt_Some; exact Hr).
  set (n := length (sockets s)).
  assert (E1 : step p s Connect =
               set_wsRef (Some n) (set_sockets (sockets s ++ [CONNECTING]) s)).
  { rewrite step_same_loading; cbn [handler]; unfold connect; mred; rewrite Hw, Hr;
      rewrite bool_decide_false by congruence; mred; reflexivity. }
  rewrite E1. set (s1 := set_wsRef (Some n) (set_sockets (sockets s ++ [CONNECTING]) s)).
  assert (Hr1 : sockets s1 !! i = Some CONNECTING).
  { cbn. rewrite lookup_app_l by exact Hi. exact Hr. }
  assert (Hn1 : sockets s1 !! n = Some CONNECTING).
  { cbn. rewrite lookup_app_r by lia. rewrite Nat.sub_diag. reflexivity. }
  set (m := (set_socket i OPEN ;; onopen)).
  assert (E2 : handler p (SocketOpen i) s1 = m s1).
  { cbn [handler]. rewrite Hr1, bool_decide_true by reflexivity. reflexivity. }
  assert (F : sockets (fst (m s1)) !! i = Some OPEN /\ isConnected (fst (m s1)) = true /\
              wsRef (fst (m s1)) = Some n /\ sockets (fst (m s1)) !! n = Some CONNECTING /\
              isLoading (fst (m s1)) = isLoading s1).
  { assert (Hi1 : i < length (sockets s1)) by (eapply lookup_lt_Some; exact Hr1).
    subst m. unfold onopen, set_socket. mred.
    destruct (reconnectTimeoutRef s1); unfold clearTimeout; mred; cbn -[s1];
      rewrite list_lookup_insert_eq by exact Hi1;
      rewrite list_lookup_insert_ne by lia; auto. }
  cbv zeta. rewrite step_same_loading; rewrite E2; [|apply F].
  destruct F as (F1 & F2 & F3 & F4 & _). do 4 (split; [assumption|]).
  destruct (sendMessage_split t _ n F3 F2) as (s3 & -> & G1 & G2 & _).
  unfold with_render, ws_send. rewrite G1, G2, F4. reflexivity.
Qed.

Lemma X8_connect_while_connecting_witness :
  let s2 := step P (step P mounted Connect) (SocketOpen 0) in
  sockets s2 !! 0 = Some OPEN /\ isConnected s2 = true /\
  wsRef s2 = Some (length (sockets mounted)) /\
  sockets s2 !! length (sockets mounted) = Some CONNECTING /\
  snd (sendMessage (txt "hello") s2) = None.
Proof. apply X8_connect_while_connecting; vm_compute; reflexivity. Defined.


(** X9: ChatPanel and UserView give the hook no consumer callback: an
    admin response that is not null only stops loading and clears the
    assistant message ref, whatever its config holds. *)
Theorem X9_no_consumers_admin_quiet (r : json) (s : st) :
  r <> JNull ->
  handleAdminResponse no_consumers r s =
    (set_currentAssistantMessageRef None
       (set_isLoading false (set_outputs (outputs s ++ [AdminResponseReceived r]) s)),
     Some tt).
Proof.
  intros Hr.
  apply (handleAdminResponse_quiet _ _ (match get r (txt "config") with Some c => c | None => None end));
    [destruct r; solve [reflexivity | congruence] | apply andb_false_r..].
Qed.

Lemma X9_no_consumers_admin_quiet_witness :
  handleAdminResponse no_consumers workflows_envelope sent_q =
    (set_currentAssistantMessageRef None
       (set_isLoading false (set_outputs (outputs sent_q ++ [AdminResponseReceived workflows_envelope]) sent_q)),
     Some tt).
Proof. apply X9_no_consumers_admin_quiet. vm_compute. discriminate. Defined.

(** X10: when the response's config is missing or is not an object (a
    string, an array, a number, a boolean or null), no callback is called,
    whichever callbacks the hook was given; loading stops and the
    assistant message ref is cleared. *)
Theorem X10_config_not_object (p : props) (r : json) (cfg : option json) (s : st) :
  get r (txt "config") = Some cfg ->
  match cfg with Some (JObj _) => false | _ => true end = true ->
  handleAdminResponse p r s =
    (set_currentAssistantMessageRef None
       (set_isLoading false (set_outputs (outputs s ++ [AdminResponseReceived r]) s)),
     Some tt).
Proof.
  intros Hc Hn. apply (handleAdminResponse_quiet p r cfg s Hc);
    destruct cfg as [[]|]; solve [reflexivity | discriminate Hn].
Qed.

Lemma X10_config_not_object_witness :
  let r := JObj [(txt "config", JStr (txt "x"))] in
  handleAdminResponse P r sent_q =
    (set_currentAssistantMessageRef None
       (set_isLoading false (set_outputs (outputs sent_q ++ [AdminResponseReceived r]) sent_q)),
     Some tt).
Proof.
  apply (X10_config_not_object P _ (Some (JStr (txt "x")))); vm_compute; reflexivity.
Defined.

(** X11: when the objects section is converted and one of its entries is
    null, reading its [fields] throws: no callback is called, and loading
    and the assistant message ref are left as they were. *)
Theorem X11_null_object_throws (p : props) (r : json) (cfg : option json) (O : json)
    (k : text) (s : st) :
  get r (txt "config") = Some cfg -> get_opt cfg (txt "objects") = Some O ->
  truthy O = true -> has_onObjectsUpdated p = true -> In (k, JNull) (entries O) ->
  let s' := fst (handleAdminResponse p r s) in
  snd (handleAdminResponse p r s) = None /\
  outputs s' = outputs s ++ [AdminResponseReceived r] /\
  isLoading s' = isLoading s /\
  currentAssistantMessageRef s' = currentAssistantMessageRef s.
Proof.
  intros Hc Ho Ht Hp Hin. unfold handleAdminResponse. mred. rewrite Hc. mred.
  rewrite Ho. cbn [truthy_opt section_value]. rewrite Ht, Hp. cbn [andb].
  lazymatch goal with
  | |- context [convert_objects ?e ?s0] =>
      destruct (convert_objects_null e k Hin s0) as (n & ->)
  end.
  cbn. auto.
Qed.

Lemma X11_null_object_throws_witness :
  let r := JObj [(txt "config", JObj [(txt "objects", JObj [(txt "a", JNull)])])] in
  let s' := fst (handleAdminResponse P r sent_q) in
  snd (handleAdminResponse P r sent_q) = None /\
  outputs s' = outputs sent_q ++ [AdminResponseReceived r] /\
  isLoading s' = isLoading sent_q /\
  currentAssistantMessageRef s' = currentAssistantMessageRef sent_q.
Proof.
  apply (X11_null_object_throws P _ (Some (JObj [(txt "objects", JObj [(txt "a", JNull)])]))
           (JObj [(txt "a", JNull)]) (txt "a"));
    [vm_compute; reflexivity | vm_compute; reflexivity | vm_compute; reflexivity
    | vm_compute; reflexivity | vm_compute; left; reflexivity].
Defined.

(** X12: when all three sections are present and truthy, their entries
    are not null and all three callbacks are given, the hook calls the
    objects callback, then the workflows callback, then the layout
    callback with the layout value itself; the converted items carry the
    entry names in order, loading stops and the assistant message ref is
    cleared. *)
Theorem X12_admin_dispatch_order (p : props) (r : json) (cfg : option json) (O W L : json)
    (s : st) :
  has_onObjectsUpdated p = true -> has_onWorkflowsUpdated p = true ->
  has_onLayoutGenerated p = true ->
  get r (txt "config") = Some cfg ->
  get_opt cfg (txt "objects") = Some O -> truthy O = true ->
  get_opt cfg (txt "workflows") = Some W -> truthy W = true ->
  get_opt cfg (txt "layout") = Some L -> truthy L = true ->
  Forall (fun e => snd e <> JNull) (entries O) ->
  Forall (fun e => snd e <> JNull) (entries W) ->
  exists ol wl s', handleAdminResponse p r s = (s', Some tt) /\
    outputs s' = outputs s ++ [AdminResponseReceived r; ObjectsUpdated ol;
                               WorkflowsUpdated wl; LayoutGenerated L] /\
    map o_name ol = map fst (entries O) /\ map w_name wl = map fst (entries W) /\
    isLoading s' = false /\ currentAssistantMessageRef s' = None.
Proof.
  intros Hpo Hpw Hpl Hc Ho Hto Hw Htw Hl Htl HO HW.
  unfold handleAdminResponse. mred. rewrite Hc. mred.
  rewrite Ho, Hw, Hl. cbn [truthy_opt section_value]. rewrite Hto, Hpo, Htw, Hpw, Htl, Hpl.
  cbn [andb].
  lazymatch goal with
  | |- context [convert_objects ?e ?s0] =>
      destruct (convert_objects_ok e HO s0) as (n & ol & -> & Hol)
  end.
  mred.
  lazymatch goal with
  | |- context [convert_workflows ?c ?e ?s0] =>
      destruct (convert_workflows_ok c e HW s0) as (m & wl & -> & Hwl)
  end.
  mred. do 3 eexists. split; [reflexivity|]. cbn.
  rewrite <- !app_assoc. auto.
Qed.

Lemma X12_admin_dispatch_order_witness :
  let O := JObj [(txt "Task", JObj [])] in
  let W := JObj [(txt "Flow", JObj [])] in
  let L := JArr [] in
  let r := JObj [(txt "config", JObj [(txt "objects", O); (txt "workflows", W); (txt "layout", L)])] in
  exists ol wl s', handleAdminResponse P r sent_q = (s', Some tt) /\
    outputs s' = outputs sent_q ++ [AdminResponseReceived r; ObjectsUpdated ol;
                                    WorkflowsUpdated wl; LayoutGenerated L] /\
    map o_name ol = map fst (entries O) /\ map w_name wl = map fst (entries W) /\
    isLoading s' = false /\ currentAssistantMessageRef s' = None.
Proof.
  apply (X12_admin_dispatch_order P _
           (Some (JObj [(txt "objects", JObj [(txt "Task", JObj [])]);
                        (txt "workflows", JObj [(txt "Flow", JObj [])]); (txt "layout", JArr [])])));
    try (vm_compute; reflexivity);
    vm_compute; repeat constructor; discriminate.
Defined.

(** X13: the parse attempt of [handleStreamingMessage] (its [JSON.parse]
    of the trimmed buffer and what follows it) gives the same result with
    or without whitespace around the buffer, whitespace as
    String.prototype.trim counts it: tab, line breaks, vertical tab, form
    feed, space, no-break space, the Unicode space separators, the line
    and paragraph separators and the byte order mark. *)
Theorem X13_padding_ignored (p : props) (w1 b w2 : text) (s : st) :
  forallb is_js_ws w1 = true -> forallb is_js_ws w2 = true ->
  try_parse p (w1 ++ b ++ w2) s = try_parse p b s.
Proof. intros H1 H2. unfold try_parse. rewrite trim_ws by assumption. reflexivity. Qed.

Lemma X13_padding_ignored_witness :
  try_parse P ([32; 160; 8232]%N ++ txt "null" ++ [13; 12288]%N) connected =
  try_parse P (txt "null") connected.
Proof. apply X13_padding_ignored; vm_compute; reflexivity. Defined.

(** X14: ChatPanel's send handler, with a non-blank input and no answer
    pending, clears the input even when the hook is not connected: the
    text is lost, no message is shown and nothing is sent. *)
Theorem X14_panel_send_disconnected (inputValue : text) (s : st) :
  trim inputValue <> [] -> isLoading s = false ->
  wsRef s = None \/ isConnected s = false ->
  handleSendMessage inputValue s = (s, [], Some tt).
Proof.
  intros Ht Hl Hd. unfold handleSendMessage.
  rewrite bool_decide_false by exact Ht. rewrite Hl. cbn [orb].
  rewrite sendMessage_blocked by exact Hd. reflexivity.
Qed.

Lemma X14_panel_send_disconnected_witness :
  handleSendMessage (txt "hello") mounted = (mounted, [], Some tt).
Proof.
  apply X14_panel_send_disconnected;
    [vm_compute; discriminate | vm_compute; reflexivity | right; vm_compute; reflexivity].
Defined.

(** X15: when the hook counts as connected but its socket is still
    CONNECTING, ChatPanel's send handler shows the user message and starts
    loading, then the exception of [sendMessage] skips the clearing of the
    input: the text stays in the input field and no frame is sent.  No
    updater is pending before the call. *)
Theorem X15_panel_send_connecting (inputValue : text) (s : st) (i : nat) :
  trim inputValue <> [] -> isLoading s = false -> pending s = [] ->
  wsRef s = Some i -> isConnected s = true -> sockets s !! i = Some CONNECTING ->
  exists s', handleSendMessage inputValue s = (s', inputValue, None) /\
    isLoading s' = true /\ messages s' = messages s ++ [Some (length (heap s))] /\
    outbox s' = outbox s.
Proof.
  intros Ht Hl Hp Hw Hc Hr. unfold handleSendMessage.
  rewrite bool_decide_false by exact Ht. rewrite Hl. cbn [orb].
  destruct (sendMessage_split inputValue s i Hw Hc)
    as (s1 & -> & H1 & H2 & H3 & H4 & H5 & H6 & _).
  rewrite Hp in H6. destruct (render_append s1 (length (heap s)) H6) as [G1 _].
  unfold with_render, ws_send. rewrite H1, H2, Hr. eexists. split; [reflexivity|].
  render_keeps. rewrite G1, H5. auto.
Qed.

Lemma X15_panel_send_connecting_witness :
  let s := run P mounted [SocketOpen 0; Disconnect; Connect] in
  exists s', handleSendMessage (txt "hello") s = (s', txt "hello", None) /\
    isLoading s' = true /\ messages s' = messages s ++ [Some (length (heap s))] /\
    outbox s' = outbox s.
Proof.
  apply (X15_panel_send_connecting (txt "hello") _ 1);
    [vm_compute; discriminate | vm_compute; reflexivity..].
Defined.

(** X16: in AppView, every call of the workflows callback with at least
    one workflow selects the first of them and switches to the workflows
    tab, even when a workflow is already selected: after a run of calls,
    the selection is the first workflow of the last such call, without a
    layout.  The other calls leave the selection and the tab as they are. *)
Theorem X16_appview_last_batch_selected (os1 os2 : list output) (w : workflow_item)
    (ws : list workflow_item) (a : appview) :
  forallb (fun o => negb (selects o)) os2 = true ->
  let a' := appview_after (os1 ++ WorkflowsUpdated (w :: ws) :: os2) a in
  av_selected a' = Some (mkSelection w None) /\ av_tab a' = txt "workflows".
Proof.
  intros H. cbv zeta. unfold appview_after. rewrite fold_left_app. cbn [fold_left].
  destruct (appview_keep os2 (appview_callback None (fold_left (appview_callback None) os1 a)
                                 (WorkflowsUpdated (w :: ws))) H) as [E1 E2].
  unfold appview_after in E1, E2. rewrite E1, E2. split; reflexivity.
Qed.

Lemma X16_appview_last_batch_selected_witness :
  let w1 := {| w_id := (0%Z, 0); w_name := txt "A"; w_steps := JArr []; w_app_id := JNull;
               w_created_at := 0%Z; w_updated_at := 0%Z; w_description := JStr [];
               w_status := txt "draft" |} in
  let w2 := {| w_id := (1%Z, 1); w_name := txt "B"; w_steps := JArr []; w_app_id := JNull;
               w_created_at := 1%Z; w_updated_at := 1%Z; w_description := JStr [];
               w_status := txt "draft" |} in
  let a' := appview_after ([WorkflowsUpdated [w1]] ++ WorkflowsUpdated [w2] ::
                             [LayoutGenerated JNull; WorkflowsUpdated []]) appview_init in
  av_selected a' = Some (mkSelection w2 None) /\ av_tab a' = txt "workflows".
Proof. apply X16_appview_last_batch_selected. vm_compute. reflexivity. Defined.

(** X17: AppView never records a generated layout: starting from its
    initial state, whatever calls the hook makes, either no workflow is
    selected or the selected one has no layout. *)
Theorem X17_appview_layout_dropped (os : list output) :
  av_selected (appview_after os appview_init) = None \/
  exists w, av_selected (appview_after os appview_init) = Some (mkSelection w None).
Proof.
  assert (G : forall a, (av_selected a = None \/ exists w, av_selected a = Some (mkSelection w None)) ->
              av_selected (appview_after os a) = None \/
              exists w, av_selected (appview_after os a) = Some (mkSelection w None)).
  { unfold appview_after. induction os as [|o os IH]; intros a Ha; [exact Ha|].
    cbn [fold_left]. apply IH.
    destruct o as [r|ol|[|w ws]|l]; cbn; auto. right. exists w. reflexivity. }
  apply G. left. reflexivity.
Qed.

(** X18: AppView's workflow and object lists only grow: each call of the
    workflows or objects callback appends its items, in the order of the
    calls. *)
Theorem X18_appview_lists_append (os : list output) (a : appview) :
  av_workflows (appview_after os a) =
    av_workflows a ++ flat_map (fun o => match o with WorkflowsUpdated ws => ws | _ => [] end) os /\
  av_objects (appview_after os a) =
    av_objects a ++ flat_map (fun o => match o with ObjectsUpdated ol => ol | _ => [] end) os.
Proof.
  unfold appview_after. revert a.
  induction os as [|o os IH]; intros a; cbn [fold_left flat_map].
  - rewrite !app_nil_r. split; reflexivity.
  - destruct (IH (appview_callback None a o)) as [-> ->].
    destruct o as [r|ol|[|w ws]|l]; cbn; split; rewrite ?app_nil_r, <- ?app_assoc; reflexivity.
Qed.

(** X19: an error event on a socket that has not closed (the
    connection failed) closes it, marks the hook disconnected and, through
    the close event with code 1006 that follows, schedules a reconnect in
    3000 ms; from then on [sendMessage] does nothing. *)
Theorem X19_error_closes_and_reconnects (p : props) (s : st) (i : nat) (r : ready_state)
    (t : text) :
  sockets s !! i = Some r -> r <> CLOSED ->
  let s1 := step p s (SocketError i) in
  isConnected s1 = false /\ sockets s1 !! i = Some CLOSED /\
  timers s1 = timers s ++ [{| t_id := nextTimerId s; t_due := clock s + 3000; t_cb := ReconnectCb |}] /\
  reconnectTimeoutRef s1 = Some (nextTimerId s) /\
  sendMessage t s1 = (s1, Some tt).
Proof.
  intros Hr Hn.
  assert (Hi : i < length (sockets s)) by (eapply lookup_lt_Some; exact Hr).
  assert (E : handler p (SocketError i) s =
              onclose 1006 (set_isConnected false (set_sockets (<[i := CLOSED]> (sockets s)) s))).
  { cbn [handler]. unfold gone. rewrite Hr, !bool_decide_false by congruence.
    unfold set_socket, onerror. mred. reflexivity. }
  assert (F : isLoading (fst (handler p (SocketError i) s)) = isLoading s).
  { rewrite E. unfold onclose, setTimeout. mred. reflexivity. }
  cbv zeta. rewrite step_same_loading by exact F. rewrite E.
  unfold onclose, setTimeout. mred. cbn.
  rewrite list_lookup_insert_eq by exact Hi.
  split; [reflexivity|]. split; [reflexivity|]. split; [reflexivity|]. split; [reflexivity|].
  apply sendMessage_blocked. right. reflexivity.
Qed.

Lemma X19_error_closes_and_reconnects_witness :
  let s1 := step P mounted (SocketError 0) in
  isConnected s1 = false /\ sockets s1 !! 0 = Some CLOSED /\
  timers s1 = timers mounted ++
    [{| t_id := nextTimerId mounted; t_due := clock mounted + 3000; t_cb := ReconnectCb |}] /\
  reconnectTimeoutRef s1 = Some (nextTimerId mounted) /\
  sendMessage (txt "hello") s1 = (s1, Some tt).
Proof.
  apply (X19_error_closes_and_reconnects P mounted 0 CONNECTING);
    [vm_compute; reflexivity | discriminate].
Defined.

End Extras.
